(** * Realtime chat client: a shallow embedding of [ai-chat.js] and
      [markdown-renderer.js]

    The development follows the two source files function by function.

    - JavaScript strings are sequences of UTF-16 code units; they are
      modelled by [string], one character per code unit, which covers the code
      units below 256.  Every character the code treats specially (the HTML
      special characters, the no-break space, line feed, the word characters
      of the code-block pattern, the white space removed by [trim]) lies in
      that range.
    - Values decoded from JSON are [JSValue]s.  A conversion to a string can
      fail there: an object that has a property [toString] of its own cannot
      be converted, since what [JSON.parse] stored under that name is not a
      function; the conversions return an [option], [None] being the
      TypeError.
    - The page is a record of the DOM nodes the code reads and writes.  Message
      elements live in a store and are referred to by index, so that
      [currentAssistantMessage] aliases an element whether or not it is still
      attached to the message container.  The markup inside a message is a
      string; the elements the page needs ([#chatMessages], [#chatInput], ...)
      are taken to exist.
    - Exceptions are explicit: a computation returns [Ok] or [Exn] together
      with the state reached, and [try_catch] is the source's [try]/[catch].
    - An [async] function is split at its [await]s; the settlement of the
      awaited request is the argument of the next part.
    - Library calls ([JSON.parse], [marked.parse], [hljs], the clock and date
      formatting behind [formatTimestamp] and [formatDate]) are section
      variables.
    - Console output, scroll offsets and element heights are not part of the
      state. *)

From Stdlib Require Import ZArith Lia Bool List Ascii String DecimalString.
From stdpp Require Import base option list strings.

Set Primitive Projections.
Set Warnings "-register-all".
Open Scope Z_scope.

(** ** Strings *)

Module Str.

Definition chr (n : nat) : string := String (ascii_of_nat n) EmptyString.

(** Characters that cannot be written inside a literal. *)
Definition dq : string := chr 34.
Definition nl : string := chr 10.

Definition code (c : ascii) : N := N_of_ascii c.

Definition is_code (n : N) (c : ascii) : bool := N.eqb (code c) n.

Definition in_range (lo hi : N) (c : ascii) : bool :=
  N.leb lo (code c) && N.leb (code c) hi.

(** [\w] of a regular expression without the unicode flag: [A-Za-z0-9_]. *)
Definition is_word (c : ascii) : bool :=
  in_range 65 90 c || in_range 97 122 c || in_range 48 57 c || is_code 95 c.

(** White space and line terminators stripped by [String.prototype.trim],
    among the code units below 256: TAB, LF, VT, FF, CR, SP, NBSP. *)
Definition is_space (c : ascii) : bool :=
  in_range 9 13 c || is_code 32 c || is_code 160 c.

Fixpoint trimStart (s : string) : string :=
  match s with
  | EmptyString => EmptyString
  | String c r => if is_space c then trimStart r else s
  end.

Fixpoint trimEnd (s : string) : string :=
  match s with
  | EmptyString => EmptyString
  | String c r =>
      match trimEnd r with
      | EmptyString => if is_space c then EmptyString else String c EmptyString
      | r' => String c r'
      end
  end.

Definition trim (s : string) : string := trimEnd (trimStart s).

Definition is_empty (s : string) : bool :=
  match s with EmptyString => true | _ => false end.

(** [strip p s] is the rest of [s] after the prefix [p], when [s] starts
    with [p]. *)
Fixpoint strip (p s : string) : option string :=
  match p with
  | EmptyString => Some s
  | String a p' =>
      match s with
      | String b s' => if Ascii.eqb a b then strip p' s' else None
      | EmptyString => None
      end
  end.

(** [find p s] splits [s] at the first occurrence of [p]: the text before
    it and the text after it. *)
Fixpoint find (p s : string) : option (string * string) :=
  match strip p s with
  | Some rest => Some (EmptyString, rest)
  | None =>
      match s with
      | EmptyString => None
      | String c s' =>
          match find p s' with
          | Some (before, rest) => Some (String c before, rest)
          | None => None
          end
      end
  end.

(** The longest prefix of word characters, and what follows it. *)
Fixpoint span_word (s : string) : string * string :=
  match s with
  | String c r =>
      if is_word c then let '(w, rest) := span_word r in (String c w, rest)
      else (EmptyString, s)
  | EmptyString => (EmptyString, EmptyString)
  end.

(** [s.replace(/\n/g, by)] *)
Fixpoint replace_lf (by_ : string) (s : string) : string :=
  match s with
  | EmptyString => EmptyString
  | String c r =>
      (if is_code 10 c then by_ else String c EmptyString) +:+ replace_lf by_ r
  end.

Definition concat (l : list string) : string :=
  fold_right String.append EmptyString l.

(** A text of word characters only. *)
Fixpoint all_word (s : string) : bool :=
  match s with
  | EmptyString => true
  | String c r => is_word c && all_word r
  end.

(** Text without [<], such as the escaped code of a block. *)
Fixpoint no_lt (s : string) : bool :=
  match s with
  | EmptyString => true
  | String c r => negb (is_code 60 c) && no_lt r
  end.

(** Every character of [s] satisfies [p]. *)
Fixpoint all (p : ascii -> bool) (s : string) : bool :=
  match s with
  | EmptyString => true
  | String c r => p c && all p r
  end.

(** Neither [<] nor [>]. *)
Definition not_angle (c : ascii) : bool :=
  negb (is_code 60 c) && negb (is_code 62 c).

(** [s] starts with [p]. *)
Definition starts (p s : string) : bool :=
  match strip p s with
  | Some _ => true
  | None => false
  end.

(** [p] occurs nowhere in [s]. *)
Fixpoint absent (p s : string) : bool :=
  match s with
  | EmptyString => true
  | String c r => negb (starts p s) && absent p r
  end.

End Str.

(** ** JavaScript values *)

(** A value as [JSON.parse] returns it.  A number is held as [JSNum n] when it
    is an integer [n] of at most [2^53] in absolute value, the range in which
    [Number::toString] prints an integer digit by digit ([-0] is held as
    [JSNum 0]: it prints as [0], is falsy and is identical to [0]); any
    other number, a fraction or a number beyond that range, is held as
    [JSReal] by the text [Number::toString] prints for it ([1.5],
    [1e+21]), which identifies it. *)
Inductive JSValue : Type :=
| JSUndefined
| JSNull
| JSBool (b : bool)
| JSNum (n : Z)
| JSReal (shown : string)
| JSStr (s : string)
| JSArr (items : list JSValue)
| JSObj (fields : list (string * JSValue)).

Module JS.

(** ToBoolean *)
Definition truthy (v : JSValue) : bool :=
  match v with
  | JSUndefined | JSNull => false
  | JSBool b => b
  | JSNum n => negb (Z.eqb n 0)
  | JSReal _ => true
  | JSStr s => negb (Str.is_empty s)
  | JSArr _ | JSObj _ => true
  end.

(** [Number::toString] of an integer held as [JSNum]: its digits, with a
    minus sign when negative. *)
Definition decimal (n : Z) : string := NilEmpty.string_of_int (Z.to_int n).

(** The object has a property [k] of its own. *)
Definition has_own (k : string) (fields : list (string * JSValue)) : bool :=
  existsb (fun kv => String.eqb k (fst kv)) fields.

(** Conversion to a string, as done by a template literal, by [+] with a
    string operand, by [new Date(value)] on an object and by DOM setters;
    [None] is a TypeError.  An array joins its items with commas, [null]
    and [undefined] items giving the empty string, and fails when an item
    fails.  A plain object gives [[object Object]], through
    [Object.prototype.toString]; when it has a property [toString] of its
    own, which is not callable, there is no method left that returns a
    primitive ([valueOf] returns the object itself) and the conversion
    throws. *)
Fixpoint toString (v : JSValue) : option string :=
  match v with
  | JSUndefined => Some "undefined"
  | JSNull => Some "null"
  | JSBool true => Some "true"
  | JSBool false => Some "false"
  | JSNum n => Some (decimal n)
  | JSReal shown => Some shown
  | JSStr s => Some s
  | JSArr items =>
      (fix join (l : list JSValue) : option string :=
         match l with
         | [] => Some EmptyString
         | x :: r =>
             match match x with
                   | JSUndefined | JSNull => Some EmptyString
                   | _ => toString x
                   end, join r with
             | Some first, Some rest =>
                 Some (first +:+
                       match r with
                       | [] => EmptyString
                       | _ :: _ => "," +:+ rest
                       end)
             | _, _ => None
             end
         end) items
  | JSObj fields =>
      if has_own "toString" fields then None else Some "[object Object]"
  end.

Fixpoint assoc (k : string) (fields : list (string * JSValue)) : JSValue :=
  match fields with
  | [] => JSUndefined
  | (k', v) :: r => if String.eqb k k' then v else assoc k r
  end.

(** Property read [v.k] for the data properties the code reads ([type],
    [message], [content], ...): a TypeError ([None]) on [null] and
    [undefined], [undefined] on the other primitives and on arrays. *)
Definition get (v : JSValue) (k : string) : option JSValue :=
  match v with
  | JSUndefined | JSNull => None
  | JSObj fields => Some (assoc k fields)
  | _ => Some JSUndefined
  end.

(** Conversion to a nullable DOMString, as done by the [textContent]
    setter: [null] and [undefined] give no text; the setter throws when the
    value cannot be converted. *)
Definition toDOMString (v : JSValue) : option string :=
  match v with
  | JSUndefined | JSNull => Some EmptyString
  | _ => toString v
  end.

End JS.

(** ** markdown-renderer.js *)

Module Markdown.

(** Serialisation of one character of a text node by the [innerHTML]
    getter: [&], [<], [>] and the no-break space are escaped. *)
Definition escapeChar (c : ascii) : string :=
  if Str.is_code 38 c then "&amp;"
  else if Str.is_code 60 c then "&lt;"
  else if Str.is_code 62 c then "&gt;"
  else if Str.is_code 160 c then "&nbsp;"
  else String c EmptyString.

Fixpoint escapeText (s : string) : string :=
  match s with
  | EmptyString => EmptyString
  | String c r => escapeChar c +:+ escapeText r
  end.

(** [escapeHtml(text)]: a detached [div] receives [text] as its
    [textContent], which throws when [text] cannot be converted, and is
    read back through [innerHTML]. *)
Definition escapeHtml (text : JSValue) : option string :=
  option_map escapeText (JS.toDOMString text).

Definition open_tag : string :=
  "<pre><code class=" +:+ Str.dq +:+ "language-".
Definition open_end : string := Str.dq +:+ ">".
Definition close_tag : string := "</code></pre>".

(** One attempt of [codeBlockRegex] at the start of [s]: the captured
    language and code, and the text after the match. *)
Definition match_code_block (s : string) : option (string * string * string) :=
  match Str.strip open_tag s with
  | None => None
  | Some s1 =>
      let '(language, s2) := Str.span_word s1 in
      if Str.is_empty language then None
      else
        match Str.strip open_end s2 with
        | None => None
        | Some s3 =>
            match Str.find close_tag s3 with
            | None => None
            | Some (code, rest) => Some (language, code, rest)
            end
        end
  end.

(** The replacement callback of [wrapCodeBlocks]. *)
Definition wrapper (language code : string) : string :=
  Str.nl +:+
  "            <div class=" +:+ Str.dq +:+ "code-block-wrapper" +:+ Str.dq +:+ ">" +:+ Str.nl +:+
  "                <div class=" +:+ Str.dq +:+ "code-block-header" +:+ Str.dq +:+ ">" +:+ Str.nl +:+
  "                    <span class=" +:+ Str.dq +:+ "code-language" +:+ Str.dq +:+ ">" +:+
    language +:+ "</span>" +:+ Str.nl +:+
  "                    <button class=" +:+ Str.dq +:+ "btn-copy-code" +:+ Str.dq +:+
    " onclick=" +:+ Str.dq +:+ "copyCode(this)" +:+ Str.dq +:+ ">Copy</button>" +:+ Str.nl +:+
  "                </div>" +:+ Str.nl +:+
  "                <pre><code class=" +:+ Str.dq +:+ "language-" +:+ language +:+ Str.dq +:+ ">" +:+
    code +:+ "</code></pre>" +:+ Str.nl +:+
  "            </div>" +:+ Str.nl +:+
  "        ".

(** [html.replace(codeBlockRegex, ...)] with the global flag: matches are
    sought from left to right and do not overlap.  [skip] counts the
    characters of the last match still to be passed over. *)
Fixpoint replace_code_blocks (skip : nat) (s : string) : string :=
  match s with
  | EmptyString => EmptyString
  | String c r =>
      match skip with
      | S k => replace_code_blocks k r
      | O =>
          match match_code_block s with
          | Some (language, code, rest) =>
              wrapper language code +:+
              replace_code_blocks
                (String.length s - String.length rest - 1)%nat r
          | None => String c (replace_code_blocks O r)
          end
      end
  end.

Definition wrapCodeBlocks (html : string) : string :=
  replace_code_blocks O html.

(** The markup the default renderer of [marked] emits for a fenced code
    block with info string [lang] and escaped text [code]: the [class]
    attribute is present only when the fence names a language. *)
Definition marked_code (lang code : string) : string :=
  if Str.is_empty lang then
    "<pre><code>" +:+ code +:+ "</code></pre>" +:+ Str.nl
  else
    open_tag +:+ lang +:+ open_end +:+ code +:+ close_tag +:+ Str.nl.

(** A fenced block: the fence line with its info string, the code, the
    closing fence. *)
Definition fence (lang code : string) : string :=
  "```" +:+ lang +:+ Str.nl +:+ code +:+ "```".

Section WithMarked.

(** [marked.parse] on a string; [None] when it throws (or when [marked]
    is not loaded). *)
Variable marked_parse : string -> option string.

(** [marked.parse] rejects an input that is not a string by throwing. *)
Definition marked_parse_value (markdown : JSValue) : option string :=
  match markdown with
  | JSStr s => marked_parse s
  | _ => None
  end.

(** [renderMarkdown(markdown)]; what [escapeHtml] throws inside the [catch]
    block escapes the function. *)
Definition renderMarkdown (markdown : JSValue) : option string :=
  if negb (JS.truthy markdown) then Some EmptyString
  else
    match marked_parse_value markdown with
    | Some html => Some (wrapCodeBlocks html)
    | None => escapeHtml markdown
    end.

Definition processMessageContent (content : JSValue) (isUser : bool)
  : option string :=
  if isUser then option_map (Str.replace_lf "<br>") (escapeHtml content)
  else renderMarkdown content.

End WithMarked.

(** A fenced code block in the markup [marked] emits, with the markup that
    follows it up to the next block. *)
Record Fenced : Type := {
  fenced_lang : string;
  fenced_code : string;
  fenced_after : string
}.

(** The markup of a document: what precedes the first block, then the
    blocks. *)
Definition document (intro : string) (blocks : list Fenced) : string :=
  intro +:+
  Str.concat
    (map (fun b => marked_code (fenced_lang b) (fenced_code b) +:+ fenced_after b)
         blocks).

(** The same document with every block in its wrapper. *)
Definition wrapped_document (intro : string) (blocks : list Fenced) : string :=
  intro +:+
  Str.concat
    (map (fun b => wrapper (fenced_lang b) (fenced_code b) +:+ Str.nl +:+ fenced_after b)
         blocks).

(** The language is made of word characters, the code is escaped, and no
    other [<pre] follows before the next block. *)
Definition fenced_ok (b : Fenced) : bool :=
  negb (Str.is_empty (fenced_lang b)) && Str.all_word (fenced_lang b)
  && Str.no_lt (fenced_code b) && Str.absent "<pre" (fenced_after b).

End Markdown.

(** ** Reading user markup back

    What the HTML parser makes of the markup of a user message when it is
    assigned to [innerHTML]: the input stream is preprocessed (newlines are
    normalised), NUL characters are dropped, character references are decoded
    and [<br>] creates an element.  Only the markup [processMessageContent]
    produces for user messages is covered: text, the four character
    references of [escapeHtml] and [<br>]; [parse] gives [None] on anything
    else. *)

Module Html.

Inductive Node : Type :=
| Text (data : string)
| Br.

Definition lf : ascii := ascii_of_nat 10.

(** Newline normalisation of the input stream: CR LF and a lone CR become
    LF. *)
Fixpoint normalize_newlines (s : string) : string :=
  match s with
  | EmptyString => EmptyString
  | String c r =>
      if Str.is_code 13 c then
        String lf
          match r with
          | String c' r' =>
              if Str.is_code 10 c' then normalize_newlines r' else normalize_newlines r
          | EmptyString => EmptyString
          end
      else String c (normalize_newlines r)
  end.

(** The character reference at the start of [s], the [&] already consumed:
    the character it stands for and the length of its name. *)
Definition reference (s : string) : option (ascii * nat) :=
  match Str.strip "amp;" s, Str.strip "lt;" s, Str.strip "gt;" s, Str.strip "nbsp;" s with
  | Some _, _, _, _ => Some (ascii_of_nat 38, 4%nat)
  | _, Some _, _, _ => Some (ascii_of_nat 60, 3%nat)
  | _, _, Some _, _ => Some (ascii_of_nat 62, 3%nat)
  | _, _, _, Some _ => Some (ascii_of_nat 160, 5%nat)
  | _, _, _, _ => None
  end.

(** A character token: it extends the text node it is adjacent to. *)
Definition add_char (c : ascii) (nodes : list Node) : list Node :=
  match nodes with
  | Text data :: rest => Text (String c data) :: rest
  | _ => Text (String c EmptyString) :: nodes
  end.

(** Tokenisation and tree construction; [skip] counts the characters of the
    current reference or tag still to be passed over. *)
Fixpoint tokenize (skip : nat) (s : string) : option (list Node) :=
  match s with
  | EmptyString => Some []
  | String c r =>
      match skip with
      | S k => tokenize k r
      | O =>
          if Str.is_code 60 c then
            match Str.strip "br>" r with
            | Some _ => option_map (cons Br) (tokenize 3 r)
            | None => None
            end
          else if Str.is_code 38 c then
            match reference r with
            | Some (ch, n) => option_map (add_char ch) (tokenize n r)
            | None => None
            end
          else if Str.is_code 0 c then tokenize O r
          else option_map (add_char c) (tokenize O r)
      end
  end.

Definition parse (html : string) : option (list Node) :=
  tokenize O (normalize_newlines html).

(** [textContent]: the concatenation of the text nodes; a [br] element has
    no text. *)
Fixpoint textContent (nodes : list Node) : string :=
  match nodes with
  | [] => EmptyString
  | Text data :: rest => data +:+ textContent rest
  | Br :: rest => textContent rest
  end.

(** The text as laid out, each [br] element read as a line break. *)
Fixpoint text_with_breaks (nodes : list Node) : string :=
  match nodes with
  | [] => EmptyString
  | Text data :: rest => data +:+ text_with_breaks rest
  | Br :: rest => String lf (text_with_breaks rest)
  end.

(** The nodes of a text whose line feeds are line breaks. *)
Fixpoint lines (text : string) : list Node :=
  match text with
  | EmptyString => []
  | String c r => if Str.is_code 10 c then Br :: lines r else add_char c (lines r)
  end.

(** The nodes of any text whose line feeds are line breaks, as the parser
    reads them: a NUL is dropped and a carriage return is read as a line
    feed. *)
Fixpoint received (text : string) : list Node :=
  match text with
  | EmptyString => []
  | String c r =>
      if Str.is_code 10 c then Br :: received r
      else if Str.is_code 13 c then add_char lf (received r)
      else if Str.is_code 0 c then received r
      else add_char c (received r)
  end.

(** No NUL and no carriage return, the characters the parser drops or
    rewrites. *)
Fixpoint plain (text : string) : bool :=
  match text with
  | EmptyString => true
  | String c r => negb (Str.is_code 0 c) && negb (Str.is_code 13 c) && plain r
  end.

(** The children of an element whose only content is the text [text]. *)
Definition text_node (text : string) : list Node :=
  match text with
  | EmptyString => []
  | _ => [Text text]
  end.

End Html.

(** ** The markup of user messages *)

Section UserMarkup.

Variable marked_parse : string -> option string.

(** The markup of a user message. *)
Definition user_markup (text : string) : option string :=
  Markdown.processMessageContent marked_parse (JSStr text) true.

(** The nodes the parser builds from the markup of a user message. *)
Definition read_back (text : string) : option (list Html.Node) :=
  match user_markup text with
  | Some html => Html.parse html
  | None => None
  end.

(** The text HTML-escaped, its line feeds replaced by line breaks. *)
Definition escaped_with_breaks (text : string) : string :=
  Str.replace_lf "<br>" (Markdown.escapeText text).

(** The markup of one character of a user message. *)
Definition piece (c : ascii) : string :=
  if Str.is_code 10 c then "<br>" else Markdown.escapeChar c.

(** The reading of the round trip in which the text content of the parsed
    markup, as [textContent] gives it, is the text of the message. *)
Definition text_content_is_input : Prop :=
  forall text : string,
    option_map Html.textContent (read_back text) = Some text.

End UserMarkup.

(** ** The page and the session state of ai-chat.js *)

Inductive Role : Type := RoleUser | RoleAssistant.

Inductive Avatar : Type :=
| AvatarImg (src : string)      (* [<img src=...>] of a user message *)
| AvatarIcon.                   (* the inline icon of an assistant message *)

(** A message element: [div.message] with its avatar, its [.message-text]
    (markup and [dataset.rawContent]) and its [.message-timestamp]. *)
Record MessageEl : Type := {
  el_role : Role;
  el_avatar : Avatar;
  el_text : string;
  el_rawContent : option string;
  el_timestamp : string;
  el_highlighted : bool
}.

(** Children of [#chatMessages]. *)
Inductive Child : Type :=
| WelcomeMessage
| MessageNode (id : nat).

Record ConvItem : Type := {
  item_data_id : string;
  item_active : bool;
  item_title : string;
  item_message_count : string;
  item_updated : string
}.

(** Content of [#conversationsList]. *)
Inductive Sidebar : Type :=
| SidebarInitial
| SidebarEmpty                      (* "No conversations yet" *)
| SidebarUpdating                   (* "Updating..." *)
| SidebarItems (items : list ConvItem).

Record Status : Type := {
  status_text : string;
  status_hidden : bool;
  status_error : bool;
  status_connected : bool
}.

Record Toast : Type := {
  toast_text : string;
  toast_type : string;
  toast_show : bool;
  toast_attached : bool
}.

Inductive ReadyState : Type := CONNECTING | OPEN | CLOSING | CLOSED.

(** A [WebSocket] object: its ready state and the frames it transmitted.  A
    frame is kept as the object handed to [JSON.stringify]. *)
Record Socket : Type := {
  readyState : ReadyState;
  transmitted : list JSValue
}.

Inductive TimerAction : Type :=
| ReconnectIfDisconnected           (* callback of [handleWebSocketClose] *)
| HideConnectionStatus              (* callback of [handleWebSocketOpen] *)
| ToastShow (i : nat)
| ToastHide (i : nat)
| ToastRemove (i : nat).

Record Timer : Type := {
  timer_delay : Z;
  timer_due : Z;
  timer_action : TimerAction
}.

Record Request : Type := {
  req_endpoint : string;
  req_method : string
}.

(** The module-level variables (ai-chat.js, lines 6 to 10). *)
Record Globals : Type := {
  websocket : option nat;
  currentConversationId : JSValue;
  currentUser : JSValue;
  isConnected : bool;
  currentAssistantMessage : option nat
}.

Record Page : Type := {
  elements : list MessageEl;          (* every message element created *)
  chatMessages : list Child;
  typingHidden : bool;
  chatInput : string;
  sendBtnDisabled : bool;
  conversationsList : Sidebar;
  connectionStatus : Status;
  toastContainer : list Toast
}.

Record Env : Type := {
  sockets : list Socket;              (* every socket constructed *)
  timers : list Timer;                (* pending [setTimeout] callbacks *)
  now : Z;                            (* clock, in milliseconds *)
  requests : list Request             (* [fetch] calls issued *)
}.

Record State : Type := {
  globals : Globals;
  page : Page;
  env : Env
}.

(** Field updates. *)
Definition on_globals (f : Globals -> Globals) (s : State) : State :=
  {| globals := f (globals s); page := page s; env := env s |}.
Definition on_page (f : Page -> Page) (s : State) : State :=
  {| globals := globals s; page := f (page s); env := env s |}.
Definition on_env (f : Env -> Env) (s : State) : State :=
  {| globals := globals s; page := page s; env := f (env s) |}.

Definition set_websocket (v : option nat) : State -> State :=
  on_globals (fun g =>
    {| websocket := v; currentConversationId := currentConversationId g;
       currentUser := currentUser g; isConnected := isConnected g;
       currentAssistantMessage := currentAssistantMessage g |}).
Definition set_currentConversationId (v : JSValue) : State -> State :=
  on_globals (fun g =>
    {| websocket := websocket g; currentConversationId := v;
       currentUser := currentUser g; isConnected := isConnected g;
       currentAssistantMessage := currentAssistantMessage g |}).
Definition set_isConnected (v : bool) : State -> State :=
  on_globals (fun g =>
    {| websocket := websocket g;
       currentConversationId := currentConversationId g;
       currentUser := currentUser g; isConnected := v;
       currentAssistantMessage := currentAssistantMessage g |}).
Definition set_currentAssistantMessage (v : option nat) : State -> State :=
  on_globals (fun g =>
    {| websocket := websocket g;
       currentConversationId := currentConversationId g;
       currentUser := currentUser g; isConnected := isConnected g;
       currentAssistantMessage := v |}).

Definition set_elements (v : list MessageEl) : State -> State :=
  on_page (fun p =>
    {| elements := v; chatMessages := chatMessages p; typingHidden := typingHidden p;
       chatInput := chatInput p; sendBtnDisabled := sendBtnDisabled p;
       conversationsList := conversationsList p;
       connectionStatus := connectionStatus p; toastContainer := toastContainer p |}).
Definition set_chatMessages (v : list Child) : State -> State :=
  on_page (fun p =>
    {| elements := elements p; chatMessages := v;
       typingHidden := typingHidden p;
       chatInput := chatInput p; sendBtnDisabled := sendBtnDisabled p;
       conversationsList := conversationsList p;
       connectionStatus := connectionStatus p; toastContainer := toastContainer p |}).
Definition set_typingHidden (v : bool) : State -> State :=
  on_page (fun p =>
    {| elements := elements p;
       chatMessages := chatMessages p; typingHidden := v;
       chatInput := chatInput p; sendBtnDisabled := sendBtnDisabled p;
       conversationsList := conversationsList p;
       connectionStatus := connectionStatus p; toastContainer := toastContainer p |}).
Definition set_chatInput (v : string) : State -> State :=
  on_page (fun p =>
    {| elements := elements p;
       chatMessages := chatMessages p;
       typingHidden := typingHidden p;
       chatInput := v; sendBtnDisabled := sendBtnDisabled p;
       conversationsList := conversationsList p;
       connectionStatus := connectionStatus p; toastContainer := toastContainer p |}).
Definition set_sendBtnDisabled (v : bool) : State -> State :=
  on_page (fun p =>
    {| elements := elements p;
       chatMessages := chatMessages p;
       typingHidden := typingHidden p;
       chatInput := chatInput p; sendBtnDisabled := v;
       conversationsList := conversationsList p;
       connectionStatus := connectionStatus p; toastContainer := toastContainer p |}).
Definition set_conversationsList (v : Sidebar) : State -> State :=
  on_page (fun p =>
    {| elements := elements p;
       chatMessages := chatMessages p;
       typingHidden := typingHidden p;
       chatInput := chatInput p;
       sendBtnDisabled := sendBtnDisabled p;
       conversationsList := v;
       connectionStatus := connectionStatus p; toastContainer := toastContainer p |}).
Definition set_connectionStatus (v : Status) : State -> State :=
  on_page (fun p =>
    {| elements := elements p;
       chatMessages := chatMessages p;
       typingHidden := typingHidden p;
       chatInput := chatInput p;
       sendBtnDisabled := sendBtnDisabled p;
       conversationsList := conversationsList p;
       connectionStatus := v; toastContainer := toastContainer p |}).
Definition set_toastContainer (v : list Toast) : State -> State :=
  on_page (fun p =>
    {| elements := elements p;
       chatMessages := chatMessages p;
       typingHidden := typingHidden p;
       chatInput := chatInput p;
       sendBtnDisabled := sendBtnDisabled p;
       conversationsList := conversationsList p;
       connectionStatus := connectionStatus p;
       toastContainer := v |}).

Definition set_sockets (v : list Socket) : State -> State :=
  on_env (fun e =>
    {| sockets := v; timers := timers e; now := now e; requests := requests e |}).
Definition set_timers (v : list Timer) : State -> State :=
  on_env (fun e =>
    {| sockets := sockets e; timers := v; now := now e;
       requests := requests e |}).
Definition set_now (v : Z) : State -> State :=
  on_env (fun e =>
    {| sockets := sockets e; timers := timers e;
       now := v; requests := requests e |}).
Definition set_requests (v : list Request) : State -> State :=
  on_env (fun e =>
    {| sockets := sockets e; timers := timers e;
       now := now e; requests := v |}).


(** ** Computations: state and exceptions *)

Inductive Error : Type :=
| SyntaxError
| TypeError
| InvalidStateError
| RequestError.           (* the [Error] a failed [apiRequest] rejects with *)

Inductive Outcome (A : Type) : Type :=
| Ok (a : A) (s : State)
| Exn (e : Error) (s : State).
Arguments Ok {A} a s.
Arguments Exn {A} e s.

Definition M (A : Type) : Type := State -> Outcome A.

Definition ret {A} (a : A) : M A := fun s => Ok a s.

Definition bind {A B} (m : M A) (k : A -> M B) : M B :=
  fun s => match m s with
           | Ok a s' => k a s'
           | Exn e s' => Exn e s'
           end.

Definition throw {A} (e : Error) : M A := fun s => Exn e s.

Definition try_catch {A} (m : M A) (handler : Error -> M A) : M A :=
  fun s => match m s with
           | Ok a s' => Ok a s'
           | Exn e s' => handler e s'
           end.

Definition gets {A} (f : State -> A) : M A := fun s => Ok (f s) s.

Definition modify (f : State -> State) : M unit := fun s => Ok tt (f s).

(** A value that may fail with a TypeError (a property read). *)
Definition orThrow {A} (e : Error) (o : option A) : M A :=
  match o with
  | Some a => ret a
  | None => throw e
  end.

Notation "'do' x <- m ; k" := (bind m (fun x => k))
  (at level 10, x name, m at level 100, k at level 200, only parsing).

Fixpoint forEach {A} (f : A -> M unit) (l : list A) : M unit :=
  match l with
  | [] => ret tt
  | x :: r => do _ <- f x ; forEach f r
  end.

(** The state an outcome carries. *)
Definition state_of {A} (o : Outcome A) : State :=
  match o with
  | Ok _ s => s
  | Exn _ s => s
  end.

Definition completes {A} (o : Outcome A) : bool :=
  match o with
  | Ok _ _ => true
  | Exn _ _ => false
  end.

(** ** Browser objects used by ai-chat.js *)

Module Browser.

(** [a === b] on values decoded from JSON: two distinct objects or arrays
    are never identical. *)
Definition strict_eq (a b : JSValue) : bool :=
  match a, b with
  | JSUndefined, JSUndefined => true
  | JSNull, JSNull => true
  | JSBool x, JSBool y => Bool.eqb x y
  | JSNum x, JSNum y => Z.eqb x y
  | JSReal x, JSReal y => String.eqb x y
  | JSStr x, JSStr y => String.eqb x y
  | _, _ => false
  end.

(** The object [JSON.stringify] serialises: properties whose value is
    [undefined] are left out. *)
Definition json_object (fields : list (string * JSValue)) : JSValue :=
  JSObj (List.filter (fun kv => negb (strict_eq (snd kv) JSUndefined)) fields).

(** [setTimeout(callback, delay)] *)
Definition setTimeout (action : TimerAction) (delay : Z) : M unit :=
  modify (fun s =>
    set_timers
      (timers (env s) ++
         [{| timer_delay := delay; timer_due := now (env s) + delay;
             timer_action := action |}]) s).

(** [new WebSocket(wsUrl)]: a socket in the CONNECTING state.  The URL the
    code builds is always well formed, so the constructor does not throw. *)
Definition new_WebSocket : M nat :=
  fun s =>
    Ok (length (sockets (env s)))
       (set_sockets
          (sockets (env s) ++ [{| readyState := CONNECTING; transmitted := [] |}]) s).

Definition transmit (frame : JSValue) (sock : Socket) : Socket :=
  {| readyState := readyState sock; transmitted := transmitted sock ++ [frame] |}.

(** [websocket.send(JSON.stringify(frame))]: a TypeError when [websocket] is
    [null], an InvalidStateError while the socket is connecting; the frame is
    transmitted when the socket is open and silently discarded when it is
    closing or closed. *)
Definition websocket_send (frame : JSValue) : M unit :=
  fun s =>
    match websocket (globals s) with
    | None => Exn TypeError s
    | Some i =>
        match sockets (env s) !! i with
        | None => Exn TypeError s
        | Some sock =>
            match readyState sock with
            | CONNECTING => Exn InvalidStateError s
            | OPEN => Ok tt (set_sockets (<[i := transmit frame sock]> (sockets (env s))) s)
            | CLOSING | CLOSED => Ok tt s
            end
        end
    end.

(** [fetch] issued by [apiRequest(endpoint, method)]; the response arrives
    as a later event. *)
Definition apiRequest (endpoint method : string) : M unit :=
  modify (fun s =>
    set_requests
      (requests (env s) ++ [{| req_endpoint := endpoint; req_method := method |}]) s).

End Browser.

(** Settlement of the promise returned by [apiRequest]. *)
Inductive ApiResult : Type :=
| Resolved (v : JSValue)
| Rejected.

(** The state when the scripts have loaded: no socket, no conversation, the
    profile [user] as loaded by [loadUserInfo] ([null] if that failed), and
    the page as served, showing the welcome message. *)
Definition initial (user : JSValue) : State :=
  {| globals :=
       {| websocket := None; currentConversationId := JSNull; currentUser := user;
          isConnected := false; currentAssistantMessage := None |};
     page :=
       {| elements := []; chatMessages := [WelcomeMessage]; typingHidden := true;
          chatInput := EmptyString; sendBtnDisabled := true;
          conversationsList := SidebarInitial;
          connectionStatus :=
            {| status_text := EmptyString; status_hidden := true;
               status_error := false; status_connected := false |};
          toastContainer := [] |};
     env := {| sockets := []; timers := []; now := 0; requests := [] |} |}.

(** ** Sample frames and states *)

(** A decoder for the frames of the examples: [c:] followed by a text is a
    chunk carrying that text, [done] is a completion, [err] an error,
    [h1] and [h2] are two histories, [?] carries an unknown tag; anything
    else is not JSON. *)
Definition sample_parse (frame : string) : option JSValue :=
  match frame with
  | String "c" (String ":" text) =>
      Some (JSObj [ ("type", JSStr "assistant_message_chunk"); ("content", JSStr text) ])
  | _ =>
      if String.eqb frame "done" then
        Some (JSObj [ ("type", JSStr "assistant_message_complete") ])
      else if String.eqb frame "err" then
        Some (JSObj [ ("type", JSStr "error"); ("message", JSStr "rate limited") ])
      else if String.eqb frame "h1" then
        Some (JSObj [ ("type", JSStr "history");
                      ("messages",
                        JSArr [ JSObj [ ("role", JSStr "user"); ("content", JSStr "hi");
                                        ("timestamp", JSStr "t1") ] ]) ])
      else if String.eqb frame "h2" then
        Some (JSObj [ ("type", JSStr "history");
                      ("messages",
                        JSArr [ JSObj [ ("role", JSStr "assistant");
                                        ("content", JSStr "**bye**");
                                        ("timestamp", JSStr "t2") ];
                                JSObj [ ("role", JSStr "user"); ("content", JSStr "a<b");
                                        ("timestamp", JSStr "t3") ] ]) ])
      else if String.eqb frame "?" then
        Some (JSObj [ ("type", JSStr "unknown_tag") ])
      else None
  end.

(** An object that cannot be converted to a string: what [JSON.parse]
    makes of [{"toString": 1}]. *)
Definition unprintable : JSValue := JSObj [ ("toString", JSNum 1) ].

(** A decoder for the other frames of the examples: [hello] is the
    greeting sent once the socket is accepted, [typing] announces a reply,
    [echo] is the server's echo of a user message, [new] names a new
    conversation; [err?] is an error, [c?] a chunk and [echo?] an echo
    carrying the object above, [h3] a history whose second message carries
    it as its content, [c1e21] a chunk carrying the number [1e21]; the
    remaining frames are decoded as above. *)
Definition session_parse (frame : string) : option JSValue :=
  if String.eqb frame "err?" then
    Some (JSObj [ ("type", JSStr "error"); ("message", unprintable) ])
  else if String.eqb frame "c?" then
    Some (JSObj [ ("type", JSStr "assistant_message_chunk"); ("content", unprintable) ])
  else if String.eqb frame "c1e21" then
    Some (JSObj [ ("type", JSStr "assistant_message_chunk");
                  ("content", JSReal "1e+21") ])
  else if String.eqb frame "echo?" then
    Some (JSObj [ ("type", JSStr "user_message"); ("message", unprintable);
                  ("timestamp", JSStr "t1") ])
  else if String.eqb frame "h3" then
    Some (JSObj [ ("type", JSStr "history");
                  ("messages",
                    JSArr [ JSObj [ ("role", JSStr "assistant"); ("content", JSStr "ok");
                                    ("timestamp", JSStr "t4") ];
                            JSObj [ ("role", JSStr "assistant"); ("content", unprintable);
                                    ("timestamp", JSStr "t5") ];
                            JSObj [ ("role", JSStr "user"); ("content", JSStr "later");
                                    ("timestamp", JSStr "t6") ] ]) ])
  else if String.eqb frame "hello" then
    Some (JSObj [ ("type", JSStr "connection") ])
  else if String.eqb frame "typing" then
    Some (JSObj [ ("type", JSStr "typing"); ("is_typing", JSBool true) ])
  else if String.eqb frame "echo" then
    Some (JSObj [ ("type", JSStr "user_message"); ("message", JSStr "a<b");
                  ("timestamp", JSStr "t1") ])
  else if String.eqb frame "new" then
    Some (JSObj [ ("type", JSStr "new_conversation"); ("conversation_id", JSNum 12) ])
  else sample_parse frame.

(** A response of the conversation list. *)
Definition sample_conversations : JSValue :=
  JSArr [ JSObj [ ("id", JSNum 8); ("title", JSStr "Fix <bug>");
                  ("message_count", JSNum 3); ("updated_at", JSStr "d1") ];
          JSObj [ ("id", JSNum 9); ("title", JSStr "Hello");
                  ("message_count", JSNum 1); ("updated_at", JSStr "d2") ] ].

Definition sample_user : JSValue :=
  JSObj [ ("github_login", JSStr "octocat"); ("github_avatar_url", JSStr "avatar.png") ].

(** The session once the socket constructed at page load has opened. *)
Definition connected : State :=
  {| globals :=
       {| websocket := Some 0%nat; currentConversationId := JSNull;
          currentUser := sample_user; isConnected := true;
          currentAssistantMessage := None |};
     page :=
       {| elements := []; chatMessages := [WelcomeMessage]; typingHidden := true;
          chatInput := EmptyString; sendBtnDisabled := true;
          conversationsList := SidebarInitial;
          connectionStatus :=
            {| status_text := "Connected"; status_hidden := false;
               status_error := false; status_connected := true |};
          toastContainer := [] |};
     env :=
       {| sockets := [ {| readyState := OPEN; transmitted := [] |} ];
          timers := [ {| timer_delay := 2000; timer_due := 2000;
                         timer_action := HideConnectionStatus |} ];
          now := 0; requests := [] |} |}.

(** The connected session with a conversation selected. *)
Definition in_conversation : State := set_currentConversationId (JSNum 7) connected.

(** The same once the chunk [Hel] of a reply has been received; [marked] and
    [hljs] are taken as in the examples below. *)
Definition mid_reply : State :=
  set_currentAssistantMessage (Some 0%nat)
    (set_chatMessages [WelcomeMessage; MessageNode 0]
       (set_elements
          [ {| el_role := RoleAssistant; el_avatar := AvatarIcon;
               el_text := "Hel"; el_rawContent := Some "Hel";
               el_timestamp := "Just now"; el_highlighted := true |} ]
          in_conversation)).

(** ** ai-chat.js *)

Section Chat.

(** [JSON.parse]; [None] is a SyntaxError. *)
Variable JSON_parse : string -> option JSValue.
(** [marked.parse]; [None] when it throws. *)
Variable marked_parse : string -> option string.
(** [formatTimestamp] and [formatDate], which compare their argument with the
    clock reading: the text they return once [new Date] has taken the
    argument; [new Date().toISOString()]. *)
Variable formatTimestamp : Z -> JSValue -> string.
Variable formatDate : Z -> JSValue -> string.
Variable toISOString : Z -> string.
(** [typeof hljs !== 'undefined'] *)
Variable hljs_defined : bool.
(** What [document.querySelector('.welcome-message')] finds inside a
    message element: the element once the first node of that class in its
    markup is removed, [None] when its markup holds no such node. *)
Variable welcome_removed : MessageEl -> option MessageEl.

(** A call of [formatTimestamp] or [formatDate]: [new Date(value)] converts
    an object to a primitive first and throws when that fails; the rest
    of the function does not throw (an invalid date is formatted as
    such). *)
Definition formatted (format : Z -> JSValue -> string) (t : Z) (value : JSValue)
  : option string :=
  match JS.toString value with
  | Some _ => Some (format t value)
  | None => None
  end.

Definition processMessageContent : JSValue -> bool -> option string :=
  Markdown.processMessageContent marked_parse.

(** Scroll offsets are not modelled. *)
Definition scrollToBottom : M unit := ret tt.

Definition showConnectionStatus (message : string) (isError : bool) : M unit :=
  modify (fun s =>
    set_connectionStatus
      (if isError then
         {| status_text := message; status_hidden := false;
            status_error := true; status_connected := false |}
       else if String.eqb message "Connected" then
         {| status_text := message; status_hidden := false;
            status_error := false; status_connected := true |}
       else
         {| status_text := message; status_hidden := false;
            status_error := false; status_connected := false |}) s).

(** [toast.textContent = message] throws before the toast is appended when
    [message] cannot be converted. *)
Definition showToast (message : JSValue) (type : string) : M unit :=
  do text <- orThrow TypeError (JS.toDOMString message) ;
  do i <- gets (fun s => length (toastContainer (page s))) ;
  do _ <- modify (fun s =>
    set_toastContainer
      (toastContainer (page s) ++
         [{| toast_text := text; toast_type := type;
             toast_show := false; toast_attached := true |}]) s) ;
  do _ <- Browser.setTimeout (ToastShow i) 100 ;
  Browser.setTimeout (ToastHide i) 3000.

Definition connectWebSocket : M unit :=
  do _ <- showConnectionStatus "Connecting..." false ;
  try_catch
    (do ws <- Browser.new_WebSocket ;
     modify (set_websocket (Some ws)))
    (fun _ =>
       do _ <- showConnectionStatus "Connection failed" true ;
       showToast (JSStr "Failed to connect to chat service") "error").

Definition handleWebSocketOpen : M unit :=
  do _ <- modify (set_isConnected true) ;
  do _ <- showConnectionStatus "Connected" false ;
  Browser.setTimeout HideConnectionStatus 2000.

Definition toggleTypingIndicator (show : JSValue) : M unit :=
  do _ <- modify (set_typingHidden (negb (JS.truthy show))) ;
  scrollToBottom.

(** [document.createElement('div')] with its class, markup and data set:
    the new element's index in the store. *)
Definition createElement (el : MessageEl) : M nat :=
  fun s =>
    Ok (length (elements (page s))) (set_elements (elements (page s) ++ [el]) s).

(** [messagesContainer.appendChild(el)] *)
Definition appendChild (id : nat) : M unit :=
  modify (fun s => set_chatMessages (chatMessages (page s) ++ [MessageNode id]) s).

Definition mark_highlighted (el : MessageEl) : MessageEl :=
  {| el_role := el_role el; el_avatar := el_avatar el; el_text := el_text el;
     el_rawContent := el_rawContent el; el_timestamp := el_timestamp el;
     el_highlighted := true |}.

Definition highlight_child (c : Child) (els : list MessageEl) : list MessageEl :=
  match c with
  | MessageNode id => alter mark_highlighted id els
  | WelcomeMessage => els
  end.

(** [highlightCodeBlocks()] (markdown-renderer.js): every code block in the
    document, that is of an attached message, is highlighted and marked. *)
Definition highlightCodeBlocks : M unit :=
  if hljs_defined then
    modify (fun s =>
      set_elements (foldr highlight_child (elements (page s)) (chatMessages (page s))) s)
  else ret tt.

Definition placeholder36 : string := "https://via.placeholder.com/36".

(** The template literal of [displayUserMessage] is evaluated from left to
    right: the avatar, the text, the time.  Whatever throws there throws
    before the element is appended; the element enters the store once its
    markup is built, an element that is dropped before it is attached or
    assigned to a variable being out of reach. *)
Definition displayUserMessage (message timestamp : JSValue) : M unit :=
  do user <- gets (fun s => currentUser (globals s)) ;
  do url <- orThrow TypeError (JS.get user "github_avatar_url") ;
  do src <- orThrow TypeError
              (if JS.truthy url then JS.toString url else Some placeholder36) ;
  do text <- orThrow TypeError (processMessageContent message true) ;
  do t <- gets (fun s => now (env s)) ;
  do time <- orThrow TypeError (formatted formatTimestamp t timestamp) ;
  do messageEl <- createElement
    {| el_role := RoleUser;
       el_avatar := AvatarImg src;
       el_text := text;
       el_rawContent := None;
       el_timestamp := time;
       el_highlighted := false |} ;
  do _ <- appendChild messageEl ;
  scrollToBottom.

(** [messageText.dataset.rawContent || ''] *)
Definition rawContent_or_empty (el : MessageEl) : string :=
  match el_rawContent el with
  | Some text => text
  | None => EmptyString
  end.

(** [messageText.dataset.rawContent = newText] *)
Definition set_rawContent (newText : string) (el : MessageEl) : MessageEl :=
  {| el_role := el_role el; el_avatar := el_avatar el;
     el_text := el_text el;
     el_rawContent := Some newText;
     el_timestamp := el_timestamp el;
     el_highlighted := el_highlighted el |}.

(** [messageText.innerHTML = markup]: the code blocks of the new markup are
    not highlighted yet. *)
Definition set_innerHTML (markup : string) (el : MessageEl) : MessageEl :=
  {| el_role := el_role el; el_avatar := el_avatar el;
     el_text := markup;
     el_rawContent := el_rawContent el;
     el_timestamp := el_timestamp el;
     el_highlighted := false |}.

(** [currentText + chunk] throws when the chunk cannot be converted: by
    then the message has been opened, if none was. *)
Definition appendAssistantMessageChunk (chunk : JSValue) : M unit :=
  do current <- gets (fun s => currentAssistantMessage (globals s)) ;
  do id <-
    match current with
    | Some id => ret id
    | None =>
        do t <- gets (fun s => now (env s)) ;
        do time <- orThrow TypeError
                     (formatted formatTimestamp t (JSStr (toISOString t))) ;
        do id <- createElement
          {| el_role := RoleAssistant; el_avatar := AvatarIcon;
             el_text := EmptyString; el_rawContent := None;
             el_timestamp := time;
             el_highlighted := false |} ;
        do _ <- modify (set_currentAssistantMessage (Some id)) ;
        do _ <- appendChild id ;
        ret id
    end ;
  do messageText <- gets (fun s => elements (page s) !! id) ;
  do el <- orThrow TypeError messageText ;
  let currentText := rawContent_or_empty el in
  do text <- orThrow TypeError (JS.toString chunk) ;
  let newText := currentText +:+ text in
  do _ <- modify (fun s =>
    set_elements (alter (set_rawContent newText) id (elements (page s))) s) ;
  do markup <- orThrow TypeError (processMessageContent (JSStr newText) false) ;
  do _ <- modify (fun s =>
    set_elements (alter (set_innerHTML markup) id (elements (page s))) s) ;
  do _ <- highlightCodeBlocks ;
  scrollToBottom.

Definition completeAssistantMessage : M unit :=
  do _ <- modify (set_currentAssistantMessage None) ;
  toggleTypingIndicator (JSBool false).

(** The body of the [forEach] callback of [displayConversationHistory]. *)
Definition displayHistoryMessage (msg : JSValue) : M unit :=
  do role <- orThrow TypeError (JS.get msg "role") ;
  do content <- orThrow TypeError (JS.get msg "content") ;
  do timestamp <- orThrow TypeError (JS.get msg "timestamp") ;
  if Browser.strict_eq role (JSStr "user") then
    displayUserMessage content timestamp
  else
    do text <- orThrow TypeError (processMessageContent content false) ;
    do t <- gets (fun s => now (env s)) ;
    do time <- orThrow TypeError (formatted formatTimestamp t timestamp) ;
    do messageEl <- createElement
      {| el_role := RoleAssistant; el_avatar := AvatarIcon;
         el_text := text;
         el_rawContent := None;
         el_timestamp := time;
         el_highlighted := false |} ;
    appendChild messageEl.

Definition displayConversationHistory (messages : JSValue) : M unit :=
  do _ <- modify (set_chatMessages []) ;
  do _ <-
    match messages with
    | JSArr items => forEach displayHistoryMessage items
    | _ => throw TypeError
    end ;
  do _ <- highlightCodeBlocks ;
  scrollToBottom.

(** One case of a [switch] on strings: [(label, body)]. *)
Fixpoint switch (v : JSValue) (cases : list (string * M unit)) : M unit :=
  match cases with
  | [] => ret tt
  | (label, body) :: rest =>
      if Browser.strict_eq v (JSStr label) then body else switch v rest
  end.

Definition prop (data : JSValue) (k : string) : M JSValue :=
  orThrow TypeError (JS.get data k).

(** The [case] clauses of the [switch (data.type)] in
    [handleWebSocketMessage]; there is no [default] clause. *)
Definition cases (data : JSValue) : list (string * M unit) :=
  [ ("connection", ret tt);
    ("user_message",
      do message <- prop data "message" ;
      do timestamp <- prop data "timestamp" ;
      displayUserMessage message timestamp);
    ("typing",
      do is_typing <- prop data "is_typing" ;
      toggleTypingIndicator is_typing);
    ("assistant_message_chunk",
      do content <- prop data "content" ;
      appendAssistantMessageChunk content);
    ("assistant_message_complete", completeAssistantMessage);
    ("history",
      do messages <- prop data "messages" ;
      displayConversationHistory messages);
    ("new_conversation",
      do conversation_id <- prop data "conversation_id" ;
      modify (set_currentConversationId conversation_id));
    ("error",
      do message <- prop data "message" ;
      do _ <- showToast message "error" ;
      toggleTypingIndicator (JSBool false)) ].

Definition handleWebSocketMessage (event_data : string) : M unit :=
  try_catch
    (do data <- orThrow SyntaxError (JSON_parse event_data) ;
     do type <- prop data "type" ;
     switch type (cases data))
    (fun _ => ret tt).

Definition handleWebSocketError : M unit :=
  do _ <- modify (set_isConnected false) ;
  do _ <- showConnectionStatus "Connection error" true ;
  showToast (JSStr "Chat connection error") "error".

Definition reconnect_delay : Z := 3000.

Definition handleWebSocketClose : M unit :=
  do _ <- modify (set_isConnected false) ;
  do _ <- showConnectionStatus "Disconnected" true ;
  Browser.setTimeout ReconnectIfDisconnected reconnect_delay.

(** The callback [handleWebSocketClose] hands to [setTimeout]. *)
Definition reconnectIfDisconnected : M unit :=
  do connected <- gets (fun s => isConnected (globals s)) ;
  if negb connected then connectWebSocket else ret tt.

Definition handleInputChange : M unit :=
  modify (fun s =>
    set_sendBtnDisabled (Str.is_empty (Str.trim (chatInput (page s)))) s).

(** [document.querySelector('.welcome-message')?.remove()]: the first node
    of that class in document order is removed.  It is the welcome block
    when the message list shows it before any message whose markup holds
    such a node; otherwise the node is taken out of the first displayed
    message that holds one.  The page as served carries the class on the
    welcome block only, and the conversation list and the toasts are taken
    not to hold it. *)
Fixpoint remove_welcome (children : list Child) (els : list MessageEl)
  : list Child * list MessageEl :=
  match children with
  | [] => ([], els)
  | WelcomeMessage :: rest => (rest, els)
  | MessageNode id :: rest =>
      match els !! id with
      | Some el =>
          match welcome_removed el with
          | Some el' => (children, <[id := el']> els)
          | None =>
              let '(rest', els') := remove_welcome rest els in
              (MessageNode id :: rest', els')
          end
      | None =>
          let '(rest', els') := remove_welcome rest els in
          (MessageNode id :: rest', els')
      end
  end.

Definition sendMessage : M unit :=
  do value <- gets (fun s => chatInput (page s)) ;
  let message := Str.trim value in
  do connected <- gets (fun s => isConnected (globals s)) ;
  if Str.is_empty message || negb connected then ret tt
  else
    do _ <- modify (set_chatInput EmptyString) ;
    do _ <- handleInputChange ;
    do _ <- modify (fun s =>
      let '(children, els) :=
        remove_welcome (chatMessages (page s)) (elements (page s)) in
      set_chatMessages children (set_elements els s)) ;
    do id <- gets (fun s => currentConversationId (globals s)) ;
    Browser.websocket_send
      (Browser.json_object
         [ ("type", JSStr "chat_message");
           ("message", JSStr message);
           ("conversation_id", id) ]).

Definition handleKeyDown (key : string) (shiftKey : bool) : M unit :=
  if String.eqb key "Enter" && negb shiftKey then sendMessage else ret tt.

(** *** The conversation list *)

(** One [.conversation-item] of [displayConversations]. *)
Definition conversationItem (current : JSValue) (t : Z) (conv : JSValue)
  : option ConvItem :=
  match JS.get conv "id", JS.get conv "title",
        JS.get conv "message_count", JS.get conv "updated_at" with
  | Some id, Some title, Some message_count, Some updated_at =>
      match JS.toString id, Markdown.escapeHtml title,
            JS.toString message_count, formatted formatDate t updated_at with
      | Some data_id, Some title_text, Some count, Some updated =>
          Some {| item_data_id := data_id;
                  item_active := Browser.strict_eq id current;
                  item_title := title_text;
                  item_message_count := count;
                  item_updated := updated |}
      | _, _, _, _ => None
      end
  | _, _, _, _ => None
  end.

(** [conversations.length === 0] and [conversations.map]: [Some []] for an
    empty list, [Some items] for an array; any other value has no [map]
    method or no [length], and the call throws ([None]). *)
Definition conversations_items (conversations : JSValue) : option (list JSValue) :=
  match conversations with
  | JSArr items => Some items
  | JSStr EmptyString => Some []
  | JSObj fields =>
      if Browser.strict_eq (JS.assoc "length" fields) (JSNum 0) then Some [] else None
  | _ => None
  end.

Definition displayConversations (conversations : JSValue) : M unit :=
  do convs <- orThrow TypeError (conversations_items conversations) ;
  match convs with
  | [] => modify (set_conversationsList SidebarEmpty)
  | _ :: _ =>
      do current <- gets (fun s => currentConversationId (globals s)) ;
      do t <- gets (fun s => now (env s)) ;
      do items <- orThrow TypeError (mapM (conversationItem current t) convs) ;
      modify (set_conversationsList (SidebarItems items))
  end.

(** [loadConversations] up to its [await]: the request is issued. *)
Definition loadConversations : M unit :=
  Browser.apiRequest "/api/conversations/" "GET".

(** [loadConversations] from its [await] on. *)
Definition loadConversations_resume (response : ApiResult) : M unit :=
  try_catch
    (match response with
     | Resolved conversations => displayConversations conversations
     | Rejected => throw RequestError
     end)
    (fun _ => modify (set_conversationsList SidebarEmpty)).

Definition deactivate (item : ConvItem) : ConvItem :=
  {| item_data_id := item_data_id item; item_active := false;
     item_title := item_title item;
     item_message_count := item_message_count item;
     item_updated := item_updated item |}.

(** [document.querySelector('[data-id=...]')?.classList.add('active')]:
    the first item carrying that identifier. *)
Fixpoint activate_first (data_id : string) (items : list ConvItem) : list ConvItem :=
  match items with
  | [] => []
  | item :: rest =>
      if String.eqb (item_data_id item) data_id then
        {| item_data_id := item_data_id item; item_active := true;
           item_title := item_title item;
           item_message_count := item_message_count item;
           item_updated := item_updated item |} :: rest
      else item :: activate_first data_id rest
  end.

(** An update of the items of the conversation list, if it shows any. *)
Definition update_items (f : list ConvItem -> list ConvItem) (s : State) : State :=
  match conversationsList (page s) with
  | SidebarItems items => set_conversationsList (SidebarItems (f items)) s
  | _ => s
  end.

Definition on_items (f : list ConvItem -> list ConvItem) : M unit :=
  modify (update_items f).

(** [loadConversation(conversationId)], called from the [onclick] of a
    conversation item with the item's numeric identifier, an integer held
    as [JSNum].  The function is [async] but never awaits. *)
Definition loadConversation (conversationId : Z) : M unit :=
  try_catch
    (do _ <- modify (set_currentConversationId (JSNum conversationId)) ;
     do _ <- on_items (map deactivate) ;
     do _ <- on_items (activate_first (JS.decimal conversationId)) ;
     Browser.websocket_send
       (Browser.json_object
          [ ("type", JSStr "load_history");
            ("conversation_id", JSNum conversationId) ]))
    (fun _ => showToast (JSStr "Failed to load conversation") "error").

Definition startNewChat : M unit :=
  do _ <- modify (set_currentConversationId JSNull) ;
  do _ <- modify (set_currentAssistantMessage None) ;
  do _ <- modify (set_chatMessages [WelcomeMessage]) ;
  do _ <- on_items (map deactivate) ;
  Browser.websocket_send (Browser.json_object [ ("type", JSStr "new_conversation") ]).

(** *** Deleting the current conversation

    [clearCurrentChat] is [async]: it is split at its two [await]s.  Each
    part returns what the function waits for next. *)
Inductive Await : Type :=
| Finished
| AwaitDelete           (* [await apiRequest(.../delete/, 'DELETE')] *)
| AwaitConversations.   (* the [await] inside [loadConversations] *)

Definition delete_failed : Error -> M Await :=
  fun _ =>
    do _ <- showToast (JSStr "Failed to delete conversation") "error" ;
    ret Finished.

(** From the call to the first [await]; [confirmed] is the answer to the
    [confirm] dialog. *)
Definition clearCurrentChat (confirmed : bool) : M Await :=
  do id <- gets (fun s => currentConversationId (globals s)) ;
  if negb (JS.truthy id) then
    do _ <- startNewChat ;
    ret Finished
  else if negb confirmed then ret Finished
  else
    try_catch
      (do text <- orThrow TypeError (JS.toString id) ;
       do _ <- Browser.apiRequest
                 ("/api/conversations/" +:+ text +:+ "/delete/") "DELETE" ;
       ret AwaitDelete)
      delete_failed.

(** From the settlement of the delete request to the [await] of
    [loadConversations]. *)
Definition clearCurrentChat_deleted (response : ApiResult) : M Await :=
  try_catch
    (match response with
     | Rejected => throw RequestError
     | Resolved _ =>
         do _ <- modify (set_currentConversationId JSNull) ;
         do _ <- modify (set_currentAssistantMessage None) ;
         do _ <- modify (set_conversationsList SidebarUpdating) ;
         do _ <- loadConversations ;
         ret AwaitConversations
     end)
    delete_failed.

(** From the settlement of the list request to the end. *)
Definition clearCurrentChat_listed (response : ApiResult) : M Await :=
  try_catch
    (do _ <- loadConversations_resume response ;
     do _ <- startNewChat ;
     do _ <- showToast (JSStr "Conversation deleted permanently") "success" ;
     ret Finished)
    delete_failed.

(** *** Timers *)

Definition on_toast (i : nat) (f : Toast -> Toast) : M unit :=
  modify (fun s => set_toastContainer (alter f i (toastContainer (page s))) s).

Definition runTimer (action : TimerAction) : M unit :=
  match action with
  | ReconnectIfDisconnected => reconnectIfDisconnected
  | HideConnectionStatus =>
      modify (fun s =>
        let st := connectionStatus (page s) in
        set_connectionStatus
          {| status_text := status_text st; status_hidden := true;
             status_error := status_error st;
             status_connected := status_connected st |} s)
  | ToastShow i =>
      on_toast i (fun t =>
        {| toast_text := toast_text t; toast_type := toast_type t;
           toast_show := true; toast_attached := toast_attached t |})
  | ToastHide i =>
      do _ <- on_toast i (fun t =>
        {| toast_text := toast_text t; toast_type := toast_type t;
           toast_show := false; toast_attached := toast_attached t |}) ;
      Browser.setTimeout (ToastRemove i) 300
  | ToastRemove i =>
      on_toast i (fun t =>
        {| toast_text := toast_text t; toast_type := toast_type t;
           toast_show := toast_show t; toast_attached := false |})
  end.

(** *** The event loop

    Handlers run to completion, one event at a time.  The browser changes a
    socket's ready state before it dispatches the event; an exception a
    handler lets escape is reported and the loop goes on from the state
    reached. *)
Inductive Event : Type :=
| CallConnect                               (* [connectWebSocket()] is called *)
| SocketOpened (i : nat)
| SocketMessage (i : nat) (data : string)
| SocketClosed (i : nat) (failed : bool)    (* [error] precedes [close] on failure *)
| TimerFired (k : nat)
| Elapsed (dt : Z).

Definition set_readyState (i : nat) (st : ReadyState) : M unit :=
  modify (fun s =>
    set_sockets
      (alter (fun sock => {| readyState := st; transmitted := transmitted sock |})
             i (sockets (env s))) s).

Definition readyState_of (s : State) (i : nat) : option ReadyState :=
  match sockets (env s) !! i with
  | Some sock => Some (readyState sock)
  | None => None
  end.

Definition dispatch (ev : Event) : M unit :=
  match ev with
  | CallConnect => connectWebSocket
  | SocketOpened i =>
      do st <- gets (fun s => readyState_of s i) ;
      match st with
      | Some CONNECTING =>
          do _ <- set_readyState i OPEN ;
          handleWebSocketOpen
      | _ => ret tt
      end
  | SocketMessage i data =>
      do st <- gets (fun s => readyState_of s i) ;
      match st with
      | Some OPEN => handleWebSocketMessage data
      | _ => ret tt
      end
  | SocketClosed i failed =>
      do st <- gets (fun s => readyState_of s i) ;
      match st with
      | Some CLOSED | None => ret tt
      | Some _ =>
          do _ <- set_readyState i CLOSED ;
          do _ <- (if failed then handleWebSocketError else ret tt) ;
          handleWebSocketClose
      end
  | TimerFired k =>
      do pending <- gets (fun s => timers (env s) !! k) ;
      do t <- gets (fun s => now (env s)) ;
      match pending with
      | Some timer =>
          if Z.leb (timer_due timer) t then
            do _ <- modify (fun s => set_timers (delete k (timers (env s))) s) ;
            runTimer (timer_action timer)
          else ret tt
      | None => ret tt
      end
  | Elapsed dt =>
      modify (fun s => set_now (now (env s) + Z.max 0 dt) s)
  end.

Definition step (ev : Event) (s : State) : State := state_of (dispatch ev s).

Definition run (evs : list Event) (s : State) : State :=
  fold_left (fun s ev => step ev s) evs s.

(** *** Reading the state *)

(** The open streaming message, if any. *)
Definition slot (s : State) : option nat := currentAssistantMessage (globals s).

(** [dataset.rawContent] of the message element [id]. *)
Definition raw_at (s : State) (id : nat) : option (option string) :=
  el_rawContent <$> elements (page s) !! id.

(** The elements shown in [#chatMessages], in document order. *)
Definition displayed (s : State) : list (option MessageEl) :=
  map (fun c => match c with
                | MessageNode id => elements (page s) !! id
                | WelcomeMessage => None
                end)
      (chatMessages (page s)).

(** Frames are handled in arrival order. *)
Definition receive (frames : list string) (s : State) : State :=
  fold_left (fun s frame => state_of (handleWebSocketMessage frame s)) frames s.

(** The [type] tag a frame decodes to. *)
Definition tag_of (frame : string) : option JSValue :=
  match JSON_parse frame with
  | Some data => JS.get data "type"
  | None => None
  end.

Definition has_tag (label : string) (frame : string) : bool :=
  match tag_of frame with
  | Some ty => Browser.strict_eq ty (JSStr label)
  | None => false
  end.

(** The property [k] of the object a frame decodes to. *)
Definition field_of (k : string) (frame : string) : JSValue :=
  match JSON_parse frame with
  | Some (JSObj fields) => JS.assoc k fields
  | _ => JSUndefined
  end.

Definition recognized : list string :=
  [ "connection"; "user_message"; "typing"; "assistant_message_chunk";
    "assistant_message_complete"; "history"; "new_conversation"; "error" ].

(** *** Predicates on states and frames *)

(** [preserves Q m]: running [m] from a state satisfying [Q] ends, normally
    or by an exception, in a state satisfying [Q]. *)
Definition preserves {A} (Q : State -> Prop) (m : M A) : Prop :=
  forall s, Q s -> Q (state_of (m s)).

(** The message [n] is the open streaming message and its raw content is
    [r]. *)
Definition streaming (n : nat) (r : option string) (s : State) : Prop :=
  slot s = Some n /\ raw_at s n = Some r.

(** What a frame does to the raw content [r] of the open message: a chunk
    is appended to it, unless its content cannot be converted to a string,
    in which case the frame is dropped. *)
Definition add_chunk (r : option string) (frame : string) : option string :=
  if has_tag "assistant_message_chunk" frame
  then
    match JS.toString (field_of "content" frame) with
    | Some text => Some (default EmptyString r +:+ text)
    | None => r
    end
  else r.

(** A frame carrying the chunk text [c]. *)
Definition is_chunk (frame c : string) : Prop :=
  has_tag "assistant_message_chunk" frame = true /\
  field_of "content" frame = JSStr c.

(** A frame the handler has no clause for: its decoded value carries none of
    the recognized [type] tags (or no tag at all). *)
Definition unrecognized (frame : string) : Prop :=
  forall label, In label recognized -> has_tag label frame = false.

(** A frame that is not JSON. *)
Definition malformed (frame : string) : Prop := JSON_parse frame = None.

(** The toast [showToast] adds to the container for the text [text]. *)
Definition toast_of (text : string) (type : string) : Toast :=
  {| toast_text := text; toast_type := type;
     toast_show := false; toast_attached := true |}.

(** The frame [sendMessage] passes to [websocket.send]. *)
Definition chat_message_frame (s : State) : JSValue :=
  Browser.json_object
    [ ("type", JSStr "chat_message");
      ("message", JSStr (Str.trim (chatInput (page s))));
      ("conversation_id", currentConversationId (globals s)) ].

(** The request [clearCurrentChat] issues for the conversation whose
    identifier reads [id]. *)
Definition delete_request (id : string) : Request :=
  {| req_endpoint := "/api/conversations/" +:+ id +:+ "/delete/";
     req_method := "DELETE" |}.

Definition list_request : Request :=
  {| req_endpoint := "/api/conversations/"; req_method := "GET" |}.

(** The conversation list once every item has lost its [active] class. *)
Definition deactivated (sidebar : Sidebar) : Sidebar :=
  match sidebar with
  | SidebarItems items => SidebarItems (map deactivate items)
  | other => other
  end.

(** The welcome view of a session without conversation. *)
Definition idle (s : State) : Prop :=
  currentConversationId (globals s) = JSNull /\
  slot s = None /\
  chatMessages (page s) = [WelcomeMessage].

(** The user element built for the text [message] and the time [timestamp]
    when the profile is [user] and the clock reads [t]; there is none when
    the profile is not loaded or when the avatar, the text or the time
    cannot be converted. *)
Definition userElement (user : JSValue) (t : Z) (message timestamp : JSValue)
  : option MessageEl :=
  match JS.get user "github_avatar_url" with
  | Some url =>
      match (if JS.truthy url then JS.toString url else Some placeholder36),
            processMessageContent message true,
            formatted formatTimestamp t timestamp with
      | Some src, Some text, Some time =>
          Some {| el_role := RoleUser; el_avatar := AvatarImg src;
                  el_text := text; el_rawContent := None;
                  el_timestamp := time; el_highlighted := false |}
      | _, _, _ => None
      end
  | None => None
  end.

(** The element [displayConversationHistory] builds for the message [msg],
    as created: a user message when [msg.role === 'user'], an assistant
    message otherwise; there is none when [msg] is [null] or when one of
    its parts cannot be rendered. *)
Definition historyElement (user : JSValue) (t : Z) (msg : JSValue)
  : option MessageEl :=
  match JS.get msg "role", JS.get msg "content", JS.get msg "timestamp" with
  | Some role, Some content, Some timestamp =>
      if Browser.strict_eq role (JSStr "user") then
        userElement user t content timestamp
      else
        match processMessageContent content false,
              formatted formatTimestamp t timestamp with
        | Some text, Some time =>
            Some {| el_role := RoleAssistant; el_avatar := AvatarIcon;
                    el_text := text; el_rawContent := None;
                    el_timestamp := time; el_highlighted := false |}
        | _, _ => None
        end
  | _, _, _ => None
  end.



(** A new element [el] created and appended to the message list. *)
Definition push (el : MessageEl) (s : State) : State :=
  set_chatMessages
    (chatMessages (page s) ++ [MessageNode (length (elements (page s)))])
    (set_elements (elements (page s) ++ [el]) s).


(** A property of the state that does not look at the page. *)
Definition page_blind (P : State -> Prop) : Prop :=
  forall s f, P s -> P (on_page f s).

(** The timer [handleWebSocketClose] sets when called in state [s]. *)
Definition reconnect_timer (s : State) : Timer :=
  {| timer_delay := reconnect_delay;
     timer_due := now (env s) + reconnect_delay;
     timer_action := ReconnectIfDisconnected |}.

Definition is_reconnect (t : Timer) : bool :=
  match timer_action t with
  | ReconnectIfDisconnected => true
  | _ => false
  end.

(** Number of reconnect attempts scheduled and not yet fired. *)
Definition pending_reconnects (s : State) : nat :=
  length (List.filter is_reconnect (timers (env s))).

(** A socket the browser may still close. *)
Definition not_closed (s : State) (i : nat) : Prop :=
  exists st, readyState_of s i = Some st /\ st <> CLOSED.

(** The reading under which a manual reconnect cancels the scheduled one:
    the socket [i] closes, [connectWebSocket] is called again [dt]
    milliseconds later, before the delay has elapsed, and when the delay has
    elapsed the scheduled timer fires; it should then construct no socket. *)
Definition manual_reconnect_suppresses : Prop :=
  forall (s : State) (i : nat) (dt : Z),
    not_closed s i ->
    0 <= dt < reconnect_delay ->
    let closed := step (SocketClosed i false) s in
    let k := length (timers (env s)) in
    let manual :=
      run [Elapsed dt; CallConnect; Elapsed (reconnect_delay - dt)] closed in
    let fired := step (TimerFired k) manual in
    length (sockets (env fired)) = length (sockets (env manual)).

Definition is_reconnect_action (action : TimerAction) : bool :=
  match action with
  | ReconnectIfDisconnected => true
  | _ => false
  end.

(** A property of the state that a frame handler cannot disturb: it looks
    neither at the page, nor at the timers other than the reconnect timers,
    nor at the conversation identifier and the streaming slot. *)
Definition frame_blind (P : State -> Prop) : Prop :=
  page_blind P /\
  (forall s more,
     List.filter is_reconnect more = [] ->
     P s -> P (set_timers (timers (env s) ++ more) s)) /\
  (forall s v, P s -> P (set_currentConversationId v s)) /\
  (forall s v, P s -> P (set_currentAssistantMessage v s)).

(** The connection as the session sees it: the socket variable, the flag,
    the sockets with what they transmitted, the pending reconnect timers;
    with it the profile, the clock and the requests issued. *)
Record Connection : Type := {
  conn_websocket : option nat;
  conn_isConnected : bool;
  conn_sockets : list Socket;
  conn_reconnects : list Timer;
  conn_user : JSValue;
  conn_now : Z;
  conn_requests : list Request
}.

Definition connection (s : State) : Connection :=
  {| conn_websocket := websocket (globals s);
     conn_isConnected := isConnected (globals s);
     conn_sockets := sockets (env s);
     conn_reconnects := List.filter is_reconnect (timers (env s));
     conn_user := currentUser (globals s);
     conn_now := now (env s);
     conn_requests := requests (env s) |}.

(** What [sendMessage] does to the page before it calls [websocket.send]:
    the input is emptied, the send button disabled, the welcome block
    removed. *)
Definition cleared (s : State) : State :=
  let '(children, els) :=
    remove_welcome (chatMessages (page s)) (elements (page s)) in
  set_chatMessages children
    (set_elements els (set_sendBtnDisabled true (set_chatInput EmptyString s))).




(** The conversation list as [loadConversations] leaves it when its
    request settles with [response], [current] being the current
    conversation and [t] the clock reading: one item per conversation of the
    response, in order; the empty state when the request failed, when the
    response is empty, and when it cannot be rendered. *)
Definition listed (current : JSValue) (t : Z) (response : ApiResult) : Sidebar :=
  match response with
  | Rejected => SidebarEmpty
  | Resolved conversations =>
      match conversations_items conversations with
      | Some (conv :: convs) =>
          match mapM (conversationItem current t) (conv :: convs) with
          | Some items => SidebarItems items
          | None => SidebarEmpty
          end
      | _ => SidebarEmpty
      end
  end.



(** ** Properties *)

Lemma append_cons (c : ascii) (a b : string) : String c a +:+ b = String c (a +:+ b).
Proof. reflexivity. Qed.

Lemma append_nil_r (s : string) : s +:+ EmptyString = s.
Proof.
  induction s as [|c s IH]; [reflexivity|].
  rewrite append_cons, IH. reflexivity.
Qed.

Lemma append_assoc (a b c : string) : (a +:+ b) +:+ c = a +:+ (b +:+ c).
Proof.
  induction a as [|x a IH]; [reflexivity|].
  rewrite !append_cons, IH. reflexivity.
Qed.

(** *** Frame rules *)

Lemma bind_ret {A B} (a : A) (k : A -> M B) : bind (ret a) k = k a.
Proof. reflexivity. Qed.

Lemma bind_throw {A B} (e : Error) (k : A -> M B) : bind (throw e) k = throw e.
Proof. reflexivity. Qed.

Lemma preserves_ret {A} Q (a : A) : preserves Q (ret a).
Proof. intros s H. exact H. Qed.

Lemma preserves_throw {A} Q e : preserves Q (@throw A e).
Proof. intros s H. exact H. Qed.

Lemma preserves_gets {A} Q (f : State -> A) : preserves Q (gets f).
Proof. intros s H. exact H. Qed.

Lemma preserves_orThrow {A} Q e (o : option A) : preserves Q (orThrow e o).
Proof. destruct o; intros s H; exact H. Qed.

Lemma preserves_modify Q (f : State -> State) :
  (forall s, Q s -> Q (f s)) -> preserves Q (modify f).
Proof. intros Hf s H. apply Hf, H. Qed.

Lemma preserves_bind {A B} Q (m : M A) (k : A -> M B) :
  preserves Q m -> (forall a, preserves Q (k a)) -> preserves Q (bind m k).
Proof.
  intros Hm Hk s H. unfold bind. specialize (Hm s H).
  destruct (m s) as [a s'|e s']; cbn in *; [apply Hk, Hm | exact Hm].
Qed.

Lemma preserves_try_catch {A} Q (m : M A) (h : Error -> M A) :
  preserves Q m -> (forall e, preserves Q (h e)) -> preserves Q (try_catch m h).
Proof.
  intros Hm Hh s H. unfold try_catch. specialize (Hm s H).
  destruct (m s) as [a s'|e s']; cbn in *; [exact Hm | apply Hh, Hm].
Qed.

Lemma preserves_forEach {A} Q (f : A -> M unit) (l : list A) :
  (forall a, preserves Q (f a)) -> preserves Q (forEach f l).
Proof.
  intros Hf. induction l as [|x r IH]; cbn [forEach].
  - apply preserves_ret.
  - apply preserves_bind; [apply Hf | intros _; exact IH].
Qed.

Lemma preserves_switch Q (v : JSValue) (cases : list (string * M unit)) :
  Forall (fun c => preserves Q (snd c)) cases -> preserves Q (switch v cases).
Proof.
  induction 1 as [|[label body] rest Hbody _ IH]; cbn [switch].
  - apply preserves_ret.
  - destruct (Browser.strict_eq v (JSStr label)); [exact Hbody | exact IH].
Qed.

(** *** The streaming message survives everything but completion *)

Lemma raw_at_app (s : State) (els : list MessageEl) n r :
  raw_at s n = Some r ->
  el_rawContent <$> (elements (page s) ++ els) !! n = Some r.
Proof.
  unfold raw_at. intros H.
  destruct (elements (page s) !! n) as [el|] eqn:E; [|discriminate].
  rewrite (lookup_app_l_Some _ _ _ _ E). exact H.
Qed.

Lemma raw_highlight (children : list Child) (els : list MessageEl) n :
  el_rawContent <$> foldr highlight_child els children !! n
  = el_rawContent <$> els !! n.
Proof.
  induction children as [|c cs IH]; cbn [foldr]; [reflexivity|].
  destruct c as [|id]; cbn [highlight_child]; [exact IH|].
  destruct (decide (id = n)) as [->|Hne].
  - rewrite list_lookup_alter_eq, <- IH.
    destruct (foldr highlight_child els cs !! n); reflexivity.
  - rewrite list_lookup_alter_ne by exact Hne. exact IH.
Qed.

Lemma streaming_createElement n r el :
  preserves (streaming n r) (createElement el).
Proof.
  intros s [Hs Hr]. split; [exact Hs|]. cbn. apply raw_at_app, Hr.
Qed.

Lemma streaming_highlight n r : preserves (streaming n r) highlightCodeBlocks.
Proof.
  unfold highlightCodeBlocks. destruct hljs_defined; [|apply preserves_ret].
  intros s [Hs Hr]. split; [exact Hs|].
  unfold raw_at. cbn. rewrite raw_highlight. exact Hr.
Qed.

(** Rules for the steps that touch neither the slot nor the store. *)
Ltac frame_modify :=
  apply preserves_modify; let H := fresh in intros ? H; exact H.

Ltac frame_with known :=
  repeat first
    [ known
    | apply preserves_ret | apply preserves_gets | apply preserves_throw
    | apply preserves_orThrow
    | apply streaming_createElement | apply streaming_highlight
    | frame_modify
    | apply preserves_bind; [|intros ?]
    | apply preserves_try_catch; [|intros ?]
    | progress cbv beta ].

Ltac frame := frame_with fail.

Lemma streaming_showToast n r message type :
  preserves (streaming n r) (showToast message type).
Proof. unfold showToast, Browser.setTimeout. frame. Qed.

Lemma streaming_toggleTypingIndicator n r show :
  preserves (streaming n r) (toggleTypingIndicator show).
Proof. unfold toggleTypingIndicator, scrollToBottom. frame. Qed.

Lemma streaming_displayUserMessage n r message timestamp :
  preserves (streaming n r) (displayUserMessage message timestamp).
Proof. unfold displayUserMessage, appendChild, scrollToBottom. frame. Qed.

Lemma streaming_displayHistoryMessage n r msg :
  preserves (streaming n r) (displayHistoryMessage msg).
Proof.
  unfold displayHistoryMessage. frame.
  destruct (Browser.strict_eq _ _).
  - apply streaming_displayUserMessage.
  - unfold appendChild. frame.
Qed.

Lemma streaming_displayConversationHistory n r messages :
  preserves (streaming n r) (displayConversationHistory messages).
Proof.
  unfold displayConversationHistory, scrollToBottom. frame.
  destruct messages; frame.
  apply preserves_forEach. intros msg. apply streaming_displayHistoryMessage.
Qed.

(** *** Decoding a frame *)

Lemma strict_eq_JSStr (v : JSValue) (label : string) :
  Browser.strict_eq v (JSStr label) = true -> v = JSStr label.
Proof.
  destruct v; cbn; try discriminate.
  intros H. apply String.eqb_eq in H. congruence.
Qed.

Lemma has_tag_inv (label frame : string) :
  has_tag label frame = true ->
  exists fields,
    JSON_parse frame = Some (JSObj fields) /\ JS.assoc "type" fields = JSStr label.
Proof.
  unfold has_tag, tag_of. intros H.
  destruct (JSON_parse frame) as [data|]; [|discriminate].
  destruct data; cbn in H; try discriminate.
  exists fields. split; [reflexivity|]. apply strict_eq_JSStr, H.
Qed.

Lemma handle_decoded (frame : string) (data ty : JSValue) (s : State) :
  JSON_parse frame = Some data ->
  JS.get data "type" = Some ty ->
  handleWebSocketMessage frame s
  = try_catch (switch ty (cases data)) (fun _ => ret tt) s.
Proof.
  intros Hp Ht. unfold handleWebSocketMessage, prop.
  rewrite Hp. cbn [orThrow]. rewrite bind_ret, Ht. reflexivity.
Qed.

(** A frame tagged [label] runs the clause of [label]. *)
Lemma handle_tagged (label frame : string) (s : State) :
  has_tag label frame = true ->
  exists fields,
    JSON_parse frame = Some (JSObj fields) /\
    handleWebSocketMessage frame s
    = try_catch (switch (JSStr label) (cases (JSObj fields))) (fun _ => ret tt) s.
Proof.
  intros H. destruct (has_tag_inv _ _ H) as (fields & Hp & Ht).
  exists fields. split; [exact Hp|].
  unfold handleWebSocketMessage, try_catch, bind, prop, orThrow.
  rewrite Hp. cbn. rewrite Ht. reflexivity.
Qed.

Lemma field_of_parsed (k frame : string) fields :
  JSON_parse frame = Some (JSObj fields) -> field_of k frame = JS.assoc k fields.
Proof. unfold field_of. intros ->. reflexivity. Qed.

Lemma handle_chunk (frame : string) (s : State) :
  has_tag "assistant_message_chunk" frame = true ->
  handleWebSocketMessage frame s
  = try_catch (appendAssistantMessageChunk (field_of "content" frame))
              (fun _ => ret tt) s.
Proof.
  intros H. destruct (handle_tagged _ _ s H) as (fields & Hp & ->).
  rewrite (field_of_parsed _ _ _ Hp). reflexivity.
Qed.

Lemma handle_complete (frame : string) (s : State) :
  has_tag "assistant_message_complete" frame = true ->
  handleWebSocketMessage frame s
  = try_catch completeAssistantMessage (fun _ => ret tt) s.
Proof.
  intros H. destruct (handle_tagged _ _ s H) as (fields & Hp & ->). reflexivity.
Qed.

(** No exception escapes [handleWebSocketMessage]. *)
Lemma handleWebSocketMessage_completes (frame : string) (s : State) :
  completes (handleWebSocketMessage frame s) = true.
Proof.
  unfold handleWebSocketMessage, try_catch.
  match goal with |- context [match ?m s with _ => _ end] => destruct (m s) end;
    reflexivity.
Qed.

(** *** Chunks *)

Lemma rawContent_or_empty_default (el : MessageEl) :
  rawContent_or_empty el = default EmptyString (el_rawContent el).
Proof. unfold rawContent_or_empty. destruct (el_rawContent el); reflexivity. Qed.

(** Rendering a string never throws. *)
Lemma processMessageContent_string (text : string) (isUser : bool) :
  exists markup, processMessageContent (JSStr text) isUser = Some markup.
Proof.
  unfold processMessageContent, Markdown.processMessageContent,
    Markdown.renderMarkdown, Markdown.escapeHtml.
  cbn [JS.toDOMString JS.toString option_map Markdown.marked_parse_value].
  destruct isUser; [eexists; reflexivity|].
  destruct (negb _); [eexists; reflexivity|].
  destruct (marked_parse text); eexists; reflexivity.
Qed.

(** A chunk arriving while a streaming message is open is appended to it;
    a chunk that cannot be converted to a string is dropped before anything
    is changed. *)
Lemma chunk_open n r chunk s :
  streaming n r s ->
  let out := appendAssistantMessageChunk chunk s in
  match JS.toString chunk with
  | Some text =>
      completes out = true /\
      streaming n (Some (default EmptyString r +:+ text)) (state_of out) /\
      chatMessages (page (state_of out)) = chatMessages (page s) /\
      globals (state_of out) = globals s
  | None => out = Exn TypeError s
  end.
Proof.
  intros [Hs Hr]. unfold raw_at in Hr. unfold slot in Hs.
  destruct (elements (page s) !! n) as [el|] eqn:E; [|discriminate].
  injection Hr as <-.
  cbv zeta. unfold appendAssistantMessageChunk, bind, gets.
  rewrite Hs. cbn [ret]. rewrite E. cbn [orThrow ret throw].
  destruct (JS.toString chunk) as [text|]; cbn [orThrow ret throw]; [|reflexivity].
  destruct (processMessageContent_string (rawContent_or_empty el +:+ text) false)
    as [markup Hmarkup].
  cbn [modify]. rewrite Hmarkup. cbn [orThrow ret modify].
  unfold highlightCodeBlocks, streaming, slot, raw_at.
  destruct hljs_defined; cbn; repeat split; try assumption;
    rewrite ?raw_highlight, !list_lookup_alter_eq, E; cbn;
    rewrite rawContent_or_empty_default; reflexivity.
Qed.

(** A chunk arriving while no streaming message is open opens one, empty,
    at the end of the message list, and is appended to it; a chunk that
    cannot be converted to a string leaves the message it has opened
    empty. *)
Lemma chunk_closed chunk s :
  slot s = None ->
  let out := appendAssistantMessageChunk chunk s in
  let id := length (elements (page s)) in
  completes out = match JS.toString chunk with Some _ => true | None => false end /\
  streaming id (JS.toString chunk) (state_of out) /\
  chatMessages (page (state_of out)) = chatMessages (page s) ++ [MessageNode id].
Proof.
  intros Hs. unfold slot in Hs.
  cbv zeta. unfold appendAssistantMessageChunk, bind, gets.
  rewrite Hs. cbn [formatted JS.toString orThrow ret throw createElement modify appendChild].
  cbn [set_elements set_currentAssistantMessage set_chatMessages on_page on_globals
       page elements globals].
  rewrite list_lookup_middle by reflexivity. cbn [orThrow ret throw rawContent_or_empty el_rawContent].
  destruct (JS.toString chunk) as [text|]; cbn [orThrow ret throw].
  - destruct (processMessageContent_string (EmptyString +:+ text) false)
      as [markup Hmarkup].
    cbn [modify]. rewrite Hmarkup. cbn [orThrow ret modify].
    unfold highlightCodeBlocks, streaming, slot, raw_at.
    destruct hljs_defined; cbn; repeat split;
      rewrite ?raw_highlight, !list_lookup_alter_eq, list_lookup_middle by reflexivity;
      reflexivity.
  - unfold streaming, slot, raw_at. cbn. repeat split.
    rewrite list_lookup_middle by reflexivity. reflexivity.
Qed.

Lemma has_tag_excl (a b frame : string) :
  has_tag a frame = true -> String.eqb a b = false -> has_tag b frame = false.
Proof.
  unfold has_tag. destruct (tag_of frame) as [ty|]; [|discriminate].
  intros H Hab. apply strict_eq_JSStr in H. subst ty. cbn. exact Hab.
Qed.

(** Any frame other than a chunk or a completion leaves the open streaming
    message as it is. *)
Lemma streaming_other n r (frame : string) :
  has_tag "assistant_message_chunk" frame = false ->
  has_tag "assistant_message_complete" frame = false ->
  preserves (streaming n r) (handleWebSocketMessage frame).
Proof.
  intros Hchunk Hcomplete.
  unfold has_tag, tag_of in Hchunk, Hcomplete.
  unfold handleWebSocketMessage, prop.
  destruct (JSON_parse frame) as [data|]; cbn [orThrow];
    [rewrite bind_ret | rewrite bind_throw; frame].
  destruct (JS.get data "type") as [ty|]; cbn [orThrow];
    [rewrite bind_ret | rewrite bind_throw; frame].
  apply preserves_try_catch; [|frame].
  unfold cases. cbn [switch]. rewrite Hchunk, Hcomplete.
  repeat match goal with
  | |- preserves _ (if ?b then _ else _) => destruct b
  end; unfold prop;
    frame_with ltac:(first
      [ apply streaming_displayUserMessage
      | apply streaming_toggleTypingIndicator
      | apply streaming_displayConversationHistory
      | apply streaming_showToast ]).
Qed.

(** The effect of one frame on the open streaming message. *)
Lemma handle_streaming n r (frame : string) (s : State) :
  streaming n r s ->
  let s' := state_of (handleWebSocketMessage frame s) in
  raw_at s' n = Some (add_chunk r frame) /\
  slot s' = if has_tag "assistant_message_complete" frame then None else Some n.
Proof.
  intros H. cbv zeta. unfold add_chunk.
  destruct (has_tag "assistant_message_chunk" frame) eqn:Hchunk.
  - rewrite (has_tag_excl _ "assistant_message_complete" _ Hchunk eq_refl).
    rewrite handle_chunk by exact Hchunk.
    pose proof (chunk_open n r (field_of "content" frame) s H) as Hc.
    cbv zeta in Hc. unfold try_catch.
    destruct (JS.toString (field_of "content" frame)) as [text|].
    + destruct Hc as (Hc & [Hs Hr] & _).
      destruct (appendAssistantMessageChunk _ s); [|discriminate].
      split; assumption.
    + rewrite Hc. destruct H as [Hs Hr]. split; assumption.
  - destruct (has_tag "assistant_message_complete" frame) eqn:Hcomplete.
    + rewrite handle_complete by exact Hcomplete.
      destruct H as [_ Hr]. split; [exact Hr | reflexivity].
    + destruct (streaming_other n r frame Hchunk Hcomplete s H) as [Hs Hr].
      split; assumption.
Qed.

(** Frames received while a streaming message is open, none of them a
    completion: the message stays open and collects the chunk texts in
    arrival order. *)
Lemma receive_streaming n (frames : list string) : forall r s,
  streaming n r s ->
  forallb (fun f => negb (has_tag "assistant_message_complete" f)) frames = true ->
  streaming n (fold_left add_chunk frames r) (receive frames s).
Proof.
  induction frames as [|f fs IH]; intros r s H Hall; [exact H|].
  cbn in Hall. apply andb_prop in Hall as [Hf Hfs].
  apply negb_true_iff in Hf.
  cbn [receive fold_left]. apply IH; [|exact Hfs].
  destruct (handle_streaming n r f s H) as [Hr Hs].
  rewrite Hf in Hs. split; assumption.
Qed.

Lemma fold_add_chunk (frames cs : list string) :
  Forall2 is_chunk frames cs ->
  forall x, fold_left add_chunk frames (Some x) = Some (x +:+ Str.concat cs).
Proof.
  induction 1 as [|f c fs cs [Htag Hc] _ IH]; intros x; cbn.
  - rewrite append_nil_r. reflexivity.
  - unfold add_chunk at 2. rewrite Htag, Hc. cbn.
    rewrite IH, append_assoc. reflexivity.
Qed.

(** A run of chunks carrying text adds the concatenation of the texts. *)
Lemma fold_add_chunks (frames cs : list string) (r : option string) :
  Forall2 is_chunk frames cs ->
  cs <> [] ->
  fold_left add_chunk frames r
  = Some (default EmptyString r +:+ Str.concat cs).
Proof.
  intros H Hne. destruct H as [|f c fs cs' [Htag Hc] Hrest]; [congruence|].
  cbn [fold_left]. unfold add_chunk at 2. rewrite Htag, Hc.
  cbn [JS.toString]. rewrite (fold_add_chunk fs cs' Hrest).
  cbn [Str.concat fold_right]. rewrite append_assoc. reflexivity.
Qed.

Lemma chunks_not_complete (frames cs : list string) :
  Forall2 is_chunk frames cs ->
  forallb (fun f => negb (has_tag "assistant_message_complete" f)) frames = true.
Proof.
  induction 1 as [|f c fs cs [Htag _] _ IH]; [reflexivity|].
  cbn. rewrite (has_tag_excl _ "assistant_message_complete" _ Htag eq_refl).
  exact IH.
Qed.

Lemma receive_app (fs gs : list string) (s : State) :
  receive (fs ++ gs) s = receive gs (receive fs s).
Proof. unfold receive. apply fold_left_app. Qed.

Lemma completeAssistantMessage_eq (s : State) :
  completeAssistantMessage s
  = Ok tt (set_typingHidden true (set_currentAssistantMessage None s)).
Proof. reflexivity. Qed.

Lemma state_of_try_catch {A} (m : M A) (h : Error -> M A) (s : State) :
  completes (m s) = true -> state_of (try_catch m h s) = state_of (m s).
Proof. unfold try_catch. destruct (m s); [reflexivity | discriminate]. Qed.

(** A run of chunk frames received while a streaming message is open. *)
Lemma receive_chunks n (frames cs : list string) :
  Forall2 is_chunk frames cs ->
  forall x s,
    streaming n (Some x) s ->
    streaming n (Some (x +:+ Str.concat cs)) (receive frames s) /\
    chatMessages (page (receive frames s)) = chatMessages (page s).
Proof.
  induction 1 as [|f c fs cs [Htag Hc] _ IH]; intros x s H.
  - cbn. rewrite append_nil_r. split; [exact H | reflexivity].
  - cbn [receive fold_left]. rewrite handle_chunk by exact Htag.
    pose proof (chunk_open n (Some x) (field_of "content" f) s H) as Hopen.
    cbv zeta in Hopen. rewrite Hc in *. cbn [default JS.toString] in Hopen.
    destruct Hopen as (Hdone & Hstream & Hlist & _).
    rewrite state_of_try_catch by exact Hdone.
    destruct (IH _ _ Hstream) as [IH1 IH2].
    change (fold_left _ fs ?x) with (receive fs x).
    rewrite IH2, Hlist. split; [|reflexivity].
    cbn [Str.concat fold_right]. rewrite <- append_assoc. exact IH1.
Qed.

(** C1. For every run of [assistant_message_chunk] frames followed by one
    [assistant_message_complete], received while no streaming message is
    open, the message that is finalized is the one opened by the first chunk,
    shown last in the message list, and its raw content is exactly the
    concatenation of the chunk texts in arrival order.  Each chunk is
    appended verbatim to the raw content accumulated so far. *)
Theorem chunks_then_complete (frames cs : list string) (fin : string) (s : State) :
  slot s = None ->
  cs <> [] ->
  Forall2 is_chunk frames cs ->
  has_tag "assistant_message_complete" fin = true ->
  let s' := receive (frames ++ [fin]) s in
  let id := length (elements (page s)) in
  slot s' = None /\
  raw_at s' id = Some (Some (Str.concat cs)) /\
  chatMessages (page s') = chatMessages (page s) ++ [MessageNode id].
Proof.
  intros Hclosed Hne Hchunks Hfin. cbv zeta.
  destruct Hchunks as [|f c fs cs' [Htag Hc] Hrest]; [congruence|].
  rewrite receive_app. cbn [receive fold_left app].
  change (fold_left _ fs ?x) with (receive fs x).
  rewrite (handle_chunk f) by exact Htag.
  destruct (chunk_closed (field_of "content" f) s Hclosed) as (Hdone & Hstream & Hlist).
  rewrite Hc in *. cbn [JS.toString] in Hdone, Hstream.
  rewrite state_of_try_catch by exact Hdone.
  destruct (receive_chunks _ _ _ Hrest _ _ Hstream) as [[Hs Hr] Hl].
  rewrite handle_complete by exact Hfin.
  unfold try_catch. rewrite completeAssistantMessage_eq. cbn [state_of].
  repeat split.
  - exact Hr.
  - rewrite <- Hlist, <- Hl. reflexivity.
Qed.

Lemma preserves_on_items Q (f : list ConvItem -> list ConvItem) :
  (forall s v, Q s -> Q (set_conversationsList v s)) -> preserves Q (on_items f).
Proof.
  intros HQ. apply preserves_modify. intros s H. unfold update_items.
  destruct (conversationsList (page s)); auto.
Qed.

Lemma preserves_websocket_send Q (frame : JSValue) :
  (forall s v, Q s -> Q (set_sockets v s)) ->
  preserves Q (Browser.websocket_send frame).
Proof.
  intros HQ s H. unfold Browser.websocket_send.
  destruct (websocket (globals s)) as [i|]; [|exact H].
  destruct (sockets (env s) !! i) as [sock|]; [|exact H].
  destruct (readyState sock); cbn [state_of]; auto.
Qed.

(** [loadConversation] records the new identifier and keeps the streaming
    message, whether or not the request can be sent. *)
Lemma loadConversation_streaming (conversationId : Z) n r (s : State) :
  streaming n r s ->
  let s1 := state_of (loadConversation conversationId s) in
  currentConversationId (globals s1) = JSNum conversationId /\ streaming n r s1.
Proof.
  intros H. cbv zeta.
  set (Q := fun s => currentConversationId (globals s) = JSNum conversationId /\
                     streaming n r s).
  assert (Hrest : preserves Q
            (try_catch
               (do _ <- on_items (map deactivate) ;
                do _ <- on_items (activate_first (JS.decimal conversationId)) ;
                Browser.websocket_send
                  (Browser.json_object
                     [ ("type", JSStr "load_history");
                       ("conversation_id", JSNum conversationId) ]))
               (fun _ => showToast (JSStr "Failed to load conversation") "error"))).
  { unfold showToast, Browser.setTimeout.
    frame_with ltac:(first
      [ apply preserves_on_items; intros ? ? HQ; exact HQ
      | apply preserves_websocket_send; intros ? ? HQ; exact HQ ]). }
  exact (Hrest (set_currentConversationId (JSNum conversationId) s) (conj eq_refl H)).
Qed.

(** C10. [loadConversation(id)] sets [currentConversationId] to [id] at once,
    before any [history] frame is received, and leaves the open streaming
    message in place: the frames received afterwards, up to the next
    completion, find the message opened under the previous conversation still
    open, and every chunk among them is appended to it (a chunk that cannot
    be converted to a string is dropped, see [add_chunk]).  In particular a
    run of chunks carrying text adds the concatenation of the texts to
    it. *)
Theorem switch_keeps_streaming
  (conversationId : Z) n r (frames : list string) (s : State) :
  streaming n r s ->
  forallb (fun f => negb (has_tag "assistant_message_complete" f)) frames = true ->
  let s1 := state_of (loadConversation conversationId s) in
  currentConversationId (globals s1) = JSNum conversationId /\
  streaming n r s1 /\
  streaming n (fold_left add_chunk frames r) (receive frames s1) /\
  (forall cs,
     Forall2 is_chunk frames cs ->
     cs <> [] ->
     streaming n (Some (default EmptyString r +:+ Str.concat cs))
       (receive frames s1)).
Proof.
  intros H Hall. cbv zeta.
  destruct (loadConversation_streaming conversationId n r s H) as [Hid H1].
  pose proof (receive_streaming n frames r _ H1 Hall) as Hrun.
  split; [exact Hid|]. split; [exact H1|]. split; [exact Hrun|].
  intros cs Hcs Hne. rewrite <- (fold_add_chunks frames cs r Hcs Hne). exact Hrun.
Qed.

(** *** Frames without a clause *)

Lemma switch_no_clause (v : JSValue) (cs : list (string * M unit)) :
  (forall c, In c cs -> Browser.strict_eq v (JSStr (fst c)) = false) ->
  switch v cs = ret tt.
Proof.
  induction cs as [|[label body] rest IH]; intros H; [reflexivity|].
  cbn [switch].
  assert (Hl : Browser.strict_eq v (JSStr label) = false)
    by (apply (H (label, body)); left; reflexivity).
  rewrite Hl. apply IH. intros c Hc. apply H. right. exact Hc.
Qed.

Lemma cases_labels (data : JSValue) : map fst (cases data) = recognized.
Proof. reflexivity. Qed.

(** C6. A frame that is not JSON, or whose decoded value carries no
    recognized [type] tag, is dropped: [handleWebSocketMessage] returns
    normally, no exception escapes, and the state, hence the conversation
    identifier, the streaming message, the typing indicator, the message list
    and the socket, is exactly what it was. *)
Theorem unknown_frame_ignored (frame : string) (s : State) :
  malformed frame \/ unrecognized frame ->
  handleWebSocketMessage frame s = Ok tt s.
Proof.
  unfold malformed, unrecognized, has_tag, tag_of.
  intros [Hbad | Hunknown].
  - unfold handleWebSocketMessage. rewrite Hbad. reflexivity.
  - destruct (JSON_parse frame) as [data|] eqn:Hp;
      [|unfold handleWebSocketMessage; rewrite Hp; reflexivity].
    destruct (JS.get data "type") as [ty|] eqn:Ht;
      [|unfold handleWebSocketMessage, prop; rewrite Hp; cbn [orThrow];
        rewrite bind_ret, Ht; reflexivity].
    rewrite (handle_decoded _ _ _ s Hp Ht).
    rewrite switch_no_clause; [reflexivity|].
    intros c Hc. apply Hunknown. rewrite <- (cases_labels data).
    apply in_map, Hc.
Qed.


(** *** Sending *)



Lemma cleared_frame (s : State) :
  globals (cleared s) = globals s /\
  env (cleared s) = env s /\
  chatInput (page (cleared s)) = EmptyString /\
  sendBtnDisabled (page (cleared s)) = true /\
  (chatMessages (page (cleared s)), elements (page (cleared s)))
  = remove_welcome (chatMessages (page s)) (elements (page s)).
Proof.
  unfold cleared.
  destruct (remove_welcome (chatMessages (page s)) (elements (page s))).
  repeat split.
Qed.

(** Past its guard [sendMessage] clears the page and calls
    [websocket.send]. *)
Lemma sendMessage_eq (s : State) :
  Str.trim (chatInput (page s)) <> EmptyString ->
  isConnected (globals s) = true ->
  sendMessage s = Browser.websocket_send (chat_message_frame s) (cleared s).
Proof.
  intros Htext Hon. unfold sendMessage, bind, gets. rewrite Hon.
  destruct (Str.trim (chatInput (page s))) eqn:Htrim; [congruence|].
  cbn [Str.is_empty orb negb modify handleInputChange].
  unfold cleared, chat_message_frame. rewrite Htrim.
  cbn [page chatMessages elements set_chatInput set_sendBtnDisabled on_page chatInput
       Str.trim Str.trimStart Str.trimEnd Str.is_empty].
  destruct (remove_welcome (chatMessages (page s)) (elements (page s))).
  reflexivity.
Qed.


(** *** Deleting the current conversation *)

Lemma loadConversations_resume_eq (response : ApiResult) (s : State) :
  loadConversations_resume response s
  = Ok tt (set_conversationsList
             (listed (currentConversationId (globals s)) (now (env s)) response) s).
Proof.
  unfold loadConversations_resume, try_catch, listed.
  destruct response as [conversations|]; [|reflexivity].
  unfold displayConversations.
  destruct (conversations_items conversations) as [[|c cs]|]; cbn [orThrow];
    [ rewrite bind_ret | rewrite bind_ret | rewrite bind_throw ];
    try reflexivity.
  unfold bind, gets.
  destruct (mapM _ (c :: cs)) as [items|]; reflexivity.
Qed.

Lemma update_items_deactivate (s : State) :
  conversationsList (page (update_items (map deactivate) s))
  = deactivated (conversationsList (page s)).
Proof.
  unfold update_items.
  destruct (conversationsList (page s)) eqn:E; cbn; rewrite ?E; reflexivity.
Qed.

Lemma update_items_frame (f : list ConvItem -> list ConvItem) (s : State) :
  globals (update_items f s) = globals s /\
  elements (page (update_items f s)) = elements (page s) /\
  chatMessages (page (update_items f s)) = chatMessages (page s).
Proof.
  unfold update_items. destruct (conversationsList (page s)); repeat split.
Qed.

Lemma idle_startNewChat (s : State) :
  let s' := state_of (startNewChat s) in
  idle s' /\
  elements (page s') = elements (page s) /\
  conversationsList (page s') = deactivated (conversationsList (page s)).
Proof.
  cbv zeta.
  set (s0 := set_chatMessages [WelcomeMessage]
               (set_currentAssistantMessage None (set_currentConversationId JSNull s))).
  set (P := fun x => idle x /\ elements (page x) = elements (page s) /\
                     conversationsList (page x) = deactivated (conversationsList (page s))).
  change (P (state_of
               (Browser.websocket_send
                  (Browser.json_object [ ("type", JSStr "new_conversation") ])
                  (update_items (map deactivate) s0)))).
  apply preserves_websocket_send; [intros ? ? HQ; exact HQ|].
  destruct (update_items_frame (map deactivate) s0) as (Hg & He & Hc).
  unfold P, idle, slot. rewrite Hg, He, Hc, update_items_deactivate.
  repeat split.
Qed.

Lemma try_catch_bind_ok {A B}
  (m : M A) (k : A -> M B) (h : Error -> M B) (s s' : State) (a : A) :
  m s = Ok a s' -> try_catch (bind m k) h s = try_catch (k a) h s'.
Proof. intros H. unfold try_catch, bind. rewrite H. reflexivity. Qed.

Lemma try_catch_bind_state {A B} (P : State -> Prop)
  (m : M A) (k : A -> M B) (h : Error -> M B) (s : State) :
  P (state_of (m s)) ->
  (forall a, preserves P (k a)) ->
  (forall e, preserves P (h e)) ->
  P (state_of (try_catch (bind m k) h s)).
Proof.
  intros Hm Hk Hh. unfold try_catch, bind.
  destruct (m s) as [a s'|e s']; cbn [state_of] in Hm.
  - apply (preserves_try_catch P (k a) h (Hk a) Hh s' Hm).
  - apply Hh, Hm.
Qed.

(** C4. Deleting the current conversation.  Up to the first [await] the
    function only issues the delete request: the module variables and the page
    are untouched.  (When the identifier cannot be written into the URL no
    request is issued at all: the failure toast is shown and nothing else
    changes.)  If the request fails, the conversation identifier, the
    streaming slot, the message elements and the message list are still what
    they were, and an error toast is shown.  If it succeeds, the identifier and
    the slot are cleared and the list is marked as updating while the messages
    are still displayed; only when the list request has settled is the list
    replaced, by one item per conversation of the response, and after that
    the session is reset to the welcome view. *)
Theorem delete_then_reset (s : State) :
  JS.truthy (currentConversationId (globals s)) = true ->
  (JS.toString (currentConversationId (globals s)) = None ->
   exists s1,
     clearCurrentChat true s = Ok Finished s1 /\
     globals s1 = globals s /\
     elements (page s1) = elements (page s) /\
     chatMessages (page s1) = chatMessages (page s) /\
     requests (env s1) = requests (env s) /\
     toastContainer (page s1)
     = toastContainer (page s) ++ [toast_of "Failed to delete conversation" "error"]) /\
  (forall id : string,
     JS.toString (currentConversationId (globals s)) = Some id ->
     let s1 := set_requests (requests (env s) ++ [delete_request id]) s in
     clearCurrentChat true s = Ok AwaitDelete s1 /\
     (exists s2,
        clearCurrentChat_deleted Rejected s1 = Ok Finished s2 /\
        globals s2 = globals s /\
        elements (page s2) = elements (page s) /\
        chatMessages (page s2) = chatMessages (page s) /\
        toastContainer (page s2)
        = toastContainer (page s)
          ++ [toast_of "Failed to delete conversation" "error"]) /\
     (forall v, exists s2,
        clearCurrentChat_deleted (Resolved v) s1 = Ok AwaitConversations s2 /\
        currentConversationId (globals s2) = JSNull /\
        slot s2 = None /\
        conversationsList (page s2) = SidebarUpdating /\
        chatMessages (page s2) = chatMessages (page s) /\
        requests (env s2) = requests (env s1) ++ [list_request] /\
        forall response,
          let refreshed := state_of (loadConversations_resume response s2) in
          let s3 := state_of (clearCurrentChat_listed response s2) in
          conversationsList (page refreshed) = listed JSNull (now (env s)) response /\
          chatMessages (page refreshed) = chatMessages (page s) /\
          conversationsList (page s3)
          = deactivated (listed JSNull (now (env s)) response) /\
          elements (page s3) = elements (page s) /\
          idle s3)).
Proof.
  intros Hid. split.
  - intros Hno. unfold clearCurrentChat, bind, gets. rewrite Hid.
    cbn [negb]. unfold try_catch. rewrite Hno. cbn [orThrow throw].
    eexists. split; [reflexivity|]. cbn. repeat split.
  - intros id Hyes. cbv zeta. split; [|split].
    + unfold clearCurrentChat, bind, gets. rewrite Hid.
      cbn [negb]. unfold try_catch. rewrite Hyes. reflexivity.
    + eexists. split; [reflexivity|]. cbn. repeat split.
    + intros v. eexists. split; [reflexivity|]. cbn [state_of].
      do 5 (split; [reflexivity|]).
      intros response.
      match goal with
      | |- context [loadConversations_resume response ?x] =>
          set (s2 := x);
          pose proof (loadConversations_resume_eq response s2) as Heq
      end.
      change (currentConversationId (globals s2)) with JSNull in Heq.
      change (now (env s2)) with (now (env s)) in Heq.
      set (sidebar := listed JSNull (now (env s)) response) in *.
      rewrite Heq. cbn [state_of].
      split; [reflexivity|]. split; [reflexivity|].
      unfold clearCurrentChat_listed.
      set (P := fun y => conversationsList (page y) = deactivated sidebar /\
                         elements (page y) = elements (page s) /\ idle y).
      change (P (state_of
        (try_catch
           (do _ <- loadConversations_resume response ;
            do _ <- startNewChat ;
            do _ <- showToast (JSStr "Conversation deleted permanently") "success" ;
            ret Finished)
           delete_failed s2))).
      rewrite (try_catch_bind_ok _ _ _ _ _ _ Heq).
      apply try_catch_bind_state.
      * destruct (idle_startNewChat (set_conversationsList sidebar s2))
          as (Hidle & Hels & Hside).
        split; [exact Hside|]. split; [exact Hels | exact Hidle].
      * intros _. unfold showToast, Browser.setTimeout. frame.
      * intros e. unfold delete_failed, showToast, Browser.setTimeout. frame.
Qed.

(** *** History *)


(** [displayUserMessage] appends the user element, or throws before
    anything is created. *)
Lemma displayUserMessage_eq (message timestamp : JSValue) (s : State) :
  displayUserMessage message timestamp s
  = match userElement (currentUser (globals s)) (now (env s)) message timestamp with
    | Some el => Ok tt (push el s)
    | None => Exn TypeError s
    end.
Proof.
  unfold displayUserMessage, userElement, bind, gets.
  destruct (JS.get (currentUser (globals s)) "github_avatar_url") as [url|];
    cbn [orThrow ret throw]; [|reflexivity].
  destruct (if JS.truthy url then JS.toString url else Some placeholder36);
    cbn [orThrow ret throw]; [|reflexivity].
  destruct (processMessageContent message true); cbn [orThrow ret throw];
    [|reflexivity].
  destruct (formatted formatTimestamp (now (env s)) timestamp);
    cbn [orThrow ret throw]; reflexivity.
Qed.

(** One message of the payload adds its element at the end of the list, or
    throws before anything is created. *)
Lemma displayHistoryMessage_eq (msg : JSValue) (s : State) :
  displayHistoryMessage msg s
  = match historyElement (currentUser (globals s)) (now (env s)) msg with
    | Some el => Ok tt (push el s)
    | None => Exn TypeError s
    end.
Proof.
  unfold displayHistoryMessage, historyElement, bind, gets.
  destruct (JS.get msg "role") as [role|]; cbn [orThrow ret throw]; [|reflexivity].
  destruct (JS.get msg "content") as [content|]; cbn [orThrow ret throw];
    [|reflexivity].
  destruct (JS.get msg "timestamp") as [timestamp|]; cbn [orThrow ret throw];
    [|reflexivity].
  destruct (Browser.strict_eq role (JSStr "user")); [apply displayUserMessage_eq|].
  destruct (processMessageContent content false); cbn [orThrow ret throw];
    [|reflexivity].
  destruct (formatted formatTimestamp (now (env s)) timestamp);
    cbn [orThrow ret throw]; reflexivity.
Qed.

Lemma displayHistoryMessage_cases (msg : JSValue) (s : State) :
  (exists e, displayHistoryMessage msg s = Exn e s) \/
  (exists el, displayHistoryMessage msg s = Ok tt (push el s)).
Proof.
  rewrite displayHistoryMessage_eq.
  destruct (historyElement _ _ msg) as [el|];
    [right | left]; eexists; reflexivity.
Qed.






Lemma blind_push P el (s : State) : page_blind P -> P s -> P (push el s).
Proof. intros HP H. exact (HP s (fun _ => page (push el s)) H). Qed.

Lemma blind_displayConversationHistory P (messages : JSValue) :
  page_blind P -> preserves P (displayConversationHistory messages).
Proof.
  intros HP. unfold displayConversationHistory, scrollToBottom.
  assert (Hmsg : forall msg, preserves P (displayHistoryMessage msg)).
  { intros msg s H.
    destruct (displayHistoryMessage_cases msg s) as [[e ->] | [el ->]]; cbn [state_of];
      [exact H | apply blind_push; assumption]. }
  assert (Hhl : preserves P highlightCodeBlocks).
  { unfold highlightCodeBlocks. destruct hljs_defined; [|apply preserves_ret].
    intros s H. exact (HP s _ H). }
  apply preserves_bind; [intros s H; exact (HP s _ H) | intros _].
  apply preserves_bind; [|intros _; apply preserves_bind; [exact Hhl | intros _; apply preserves_ret]].
  destruct messages; first [apply preserves_throw | apply preserves_forEach, Hmsg].
Qed.


Lemma mark_highlighted_idem (el : MessageEl) :
  mark_highlighted (mark_highlighted el) = mark_highlighted el.
Proof. reflexivity. Qed.











(** *** Reconnection *)

Lemma handleWebSocketClose_eq (s : State) :
  handleWebSocketClose s
  = Ok tt (set_timers (timers (env s) ++ [reconnect_timer s])
             (set_connectionStatus
                {| status_text := "Disconnected"; status_hidden := false;
                   status_error := true; status_connected := false |}
                (set_isConnected false s))).
Proof. reflexivity. Qed.

Lemma pending_reconnects_app (s : State) (more : list Timer) (x : State) :
  timers (env x) = timers (env s) ++ more ->
  pending_reconnects x
  = (pending_reconnects s + length (List.filter is_reconnect more))%nat.
Proof.
  unfold pending_reconnects. intros ->.
  rewrite List.filter_app, length_app. reflexivity.
Qed.

(** A close event schedules one reconnect timer, after anything the error
    handler may have scheduled. *)
Lemma close_schedules (s : State) (i : nat) (failed : bool) :
  not_closed s i ->
  let closed := step (SocketClosed i failed) s in
  isConnected (globals closed) = false /\
  exists toasts,
    List.filter is_reconnect toasts = [] /\
    timers (env closed) = timers (env s) ++ toasts ++ [reconnect_timer s].
Proof.
  intros (st & Hst & Hopen). cbv zeta.
  unfold step, dispatch, bind, gets. rewrite Hst.
  destruct st; try congruence; destruct failed; cbn;
    (split; [reflexivity|]);
    first [ exists (@nil Timer); split; reflexivity
          | eexists (_ :: _ :: nil); split;
            [|rewrite <- !app_assoc; cbn [app]; reflexivity]; reflexivity ].
Qed.

(** The scheduled callback connects exactly when [isConnected] is false. *)
Lemma reconnect_fires (x : State) (k : nat) (timer : Timer) :
  timers (env x) !! k = Some timer ->
  timer_action timer = ReconnectIfDisconnected ->
  (now (env x) < timer_due timer -> step (TimerFired k) x = x) /\
  (timer_due timer <= now (env x) ->
   let fired := step (TimerFired k) x in
   timers (env fired) = delete k (timers (env x)) /\
   (isConnected (globals x) = true ->
    fired = set_timers (delete k (timers (env x))) x) /\
   (isConnected (globals x) = false ->
    length (sockets (env fired)) = S (length (sockets (env x))) /\
    websocket (globals fired) = Some (length (sockets (env x))))).
Proof.
  intros Hk Hact. unfold step, dispatch, bind, gets. rewrite Hk. split.
  - intros Hearly. apply Z.leb_gt in Hearly. rewrite Hearly. reflexivity.
  - intros Hdue. apply Z.leb_le in Hdue. rewrite Hdue. cbv zeta.
    rewrite Hact. cbn [modify runTimer].
    unfold reconnectIfDisconnected, bind, gets. cbn [isConnected globals set_timers on_env].
    destruct (isConnected (globals x)) eqn:Hconn; cbn.
    + repeat split; congruence.
    + repeat split; try congruence. rewrite length_app. cbn. lia.
Qed.

(** C2, as the code has it.  After every transport close exactly one
    reconnect attempt is scheduled, with the fixed delay of three seconds.
    Its timer does nothing before it is due and fires once: it is removed
    from the pending timers when it fires.  Nothing cancels it; when it fires
    it calls [connectWebSocket], constructing one socket, unless [isConnected]
    is true by then, in which case it changes nothing else.  A manual
    reconnect therefore suppresses the scheduled attempt only if its socket
    has opened before the delay elapses. *)
Theorem reconnect_after_close (s : State) (i : nat) (failed : bool) :
  not_closed s i ->
  let closed := step (SocketClosed i failed) s in
  isConnected (globals closed) = false /\
  pending_reconnects closed = S (pending_reconnects s) /\
  last (timers (env closed)) = Some (reconnect_timer s) /\
  forall (x : State) (k : nat),
    timers (env x) !! k = Some (reconnect_timer s) ->
    (now (env x) < now (env s) + reconnect_delay -> step (TimerFired k) x = x) /\
    (now (env s) + reconnect_delay <= now (env x) ->
     let fired := step (TimerFired k) x in
     timers (env fired) = delete k (timers (env x)) /\
     (isConnected (globals x) = true ->
      fired = set_timers (delete k (timers (env x))) x) /\
     (isConnected (globals x) = false ->
      length (sockets (env fired)) = S (length (sockets (env x))) /\
      websocket (globals fired) = Some (length (sockets (env x))))).
Proof.
  intros Hopen. cbv zeta.
  destruct (close_schedules s i failed Hopen) as (Hoff & toasts & Hnone & Htimers).
  split; [exact Hoff|]. split; [|split].
  - rewrite (pending_reconnects_app s _ _ Htimers).
    rewrite List.filter_app, Hnone. cbn. lia.
  - rewrite Htimers, !last_app. reflexivity.
  - intros x k Hk. exact (reconnect_fires x k (reconnect_timer s) Hk eq_refl).
Qed.

(** *** What frames leave alone *)

Lemma blind_modify_page P (f : Page -> Page) :
  page_blind P -> preserves P (modify (on_page f)).
Proof. intros HP. apply preserves_modify. intros s H. exact (HP s f H). Qed.

Lemma blind_setTimeout P (action : TimerAction) (delay : Z) :
  frame_blind P -> is_reconnect_action action = false ->
  preserves P (Browser.setTimeout action delay).
Proof.
  intros (_ & Ht & _) Ha. apply preserves_modify. intros s H.
  apply (Ht s [_]); [|exact H]. cbn. unfold is_reconnect. cbn. 
  destruct action; try discriminate Ha; reflexivity.
Qed.

Lemma blind_showToast P message type :
  frame_blind P -> preserves P (showToast message type).
Proof.
  intros HP. unfold showToast.
  apply preserves_bind; [apply preserves_orThrow | intros text].
  apply preserves_bind; [apply preserves_gets | intros i].
  apply preserves_bind; [|intros _].
  { apply preserves_modify. intros s H. exact (proj1 HP s _ H). }
  apply preserves_bind; [|intros _]; apply blind_setTimeout; auto.
Qed.

Lemma blind_toggleTypingIndicator P show :
  frame_blind P -> preserves P (toggleTypingIndicator show).
Proof.
  intros HP. unfold toggleTypingIndicator, scrollToBottom.
  apply preserves_bind; [|intros _; apply preserves_ret].
  apply preserves_modify. intros s H. exact (proj1 HP s _ H).
Qed.

Lemma blind_createElement P el :
  frame_blind P -> preserves P (createElement el).
Proof. intros HP s H. exact (proj1 HP s _ H). Qed.

Lemma blind_appendChild P id :
  frame_blind P -> preserves P (appendChild id).
Proof. intros HP. apply preserves_modify. intros s H. exact (proj1 HP s _ H). Qed.

Lemma blind_highlight P : frame_blind P -> preserves P highlightCodeBlocks.
Proof.
  intros HP. unfold highlightCodeBlocks. destruct hljs_defined; [|apply preserves_ret].
  apply preserves_modify. intros s H. exact (proj1 HP s _ H).
Qed.

Lemma blind_displayUserMessage P message timestamp :
  frame_blind P -> preserves P (displayUserMessage message timestamp).
Proof.
  intros HP. unfold displayUserMessage, scrollToBottom.
  frame_with ltac:(first
    [ apply blind_createElement; exact HP | apply blind_appendChild; exact HP ]).
Qed.

Lemma blind_appendAssistantMessageChunk P chunk :
  frame_blind P -> preserves P (appendAssistantMessageChunk chunk).
Proof.
  intros HP. unfold appendAssistantMessageChunk, scrollToBottom.
  apply preserves_bind; [apply preserves_gets | intros current].
  apply preserves_bind.
  { destruct current; [apply preserves_ret|].
    frame_with ltac:(first
      [ apply blind_createElement; exact HP | apply blind_appendChild; exact HP
      | apply preserves_modify; intros ? ?; apply (proj2 (proj2 (proj2 HP))); assumption ]). }
  intros id.
  frame_with ltac:(first
    [ apply blind_highlight; exact HP
    | apply preserves_modify; intros s0 H0; exact (proj1 HP s0 _ H0) ]).
Qed.

(** No clause of [handleWebSocketMessage] disturbs a property of that
    kind. *)
Lemma blind_handleWebSocketMessage P (frame : string) :
  frame_blind P -> preserves P (handleWebSocketMessage frame).
Proof.
  intros HP. unfold handleWebSocketMessage, prop.
  apply preserves_try_catch; [|intros; apply preserves_ret].
  apply preserves_bind; [apply preserves_orThrow | intros data].
  apply preserves_bind; [apply preserves_orThrow | intros ty].
  apply preserves_switch. unfold cases, prop.
  repeat (constructor; cbn [snd]);
    frame_with ltac:(first
      [ apply blind_displayUserMessage; exact HP
      | apply blind_toggleTypingIndicator; exact HP
      | apply blind_appendAssistantMessageChunk; exact HP
      | apply blind_displayConversationHistory; exact (proj1 HP)
      | apply blind_showToast; exact HP
      | apply preserves_modify; intros ? ?;
        first [ apply (proj1 (proj2 (proj2 HP))); assumption
              | apply (proj2 (proj2 (proj2 HP))); assumption ] ]).
Qed.

Lemma connection_blind (c : Connection) : frame_blind (fun x => connection x = c).
Proof.
  repeat split.
  - intros s f H. exact H.
  - intros s more Hmore <-. unfold connection. cbn.
    rewrite List.filter_app, Hmore, app_nil_r. reflexivity.
  - intros s v H. exact H.
  - intros s v H. exact H.
Qed.

(** X1. Whatever frames arrive, handling them leaves the connection as it
    is: the socket variable, the [isConnected] flag, every socket with the
    frames it transmitted (a handler never answers the server), the pending
    reconnect timers, the profile, the clock and the requests issued. *)
Theorem frames_keep_connection (frames : list string) (s : State) :
  connection (receive frames s) = connection s.
Proof.
  revert s. induction frames as [|f fs IH]; intros s; [reflexivity|].
  cbn [receive fold_left]. change (fold_left _ fs ?x) with (receive fs x).
  rewrite IH.
  apply (blind_handleWebSocketMessage (fun x => connection x = connection s));
    [apply connection_blind | reflexivity].
Qed.

(** X2. A [typing] frame does one thing: the typing indicator is hidden
    exactly when [is_typing] is falsy (so also when the property is
    missing).  A [connection] frame does nothing. *)
Theorem typing_frame (frame : string) (s : State) :
  (has_tag "typing" frame = true ->
   handleWebSocketMessage frame s
   = Ok tt (set_typingHidden (negb (JS.truthy (field_of "is_typing" frame))) s)) /\
  (has_tag "connection" frame = true -> handleWebSocketMessage frame s = Ok tt s).
Proof.
  split; intros H; destruct (handle_tagged _ _ s H) as (fields & Hp & ->).
  - rewrite (field_of_parsed _ _ _ Hp). reflexivity.
  - reflexivity.
Qed.

(** X3. A [user_message] frame appends one user element, built from the
    frame's [message] and [timestamp] and the avatar of the profile, and
    changes nothing else.  When there is no such element, because the
    profile was not loaded ([currentUser] is [null]) or because the avatar,
    the message or the time cannot be converted to text, the frame is
    dropped: the handler returns normally and the state is what it was, so
    the message never shows. *)
Theorem user_message_frame (frame : string) (s : State) :
  has_tag "user_message" frame = true ->
  handleWebSocketMessage frame s
  = Ok tt
      match userElement (currentUser (globals s)) (now (env s))
              (field_of "message" frame) (field_of "timestamp" frame) with
      | Some el => push el s
      | None => s
      end.
Proof.
  intros H. destruct (handle_tagged _ _ s H) as (fields & Hp & ->).
  rewrite !(field_of_parsed _ _ _ Hp).
  unfold try_catch.
  cbn [switch cases Browser.strict_eq String.eqb Ascii.eqb Bool.eqb].
  unfold prop. cbn [JS.get orThrow]. rewrite !bind_ret.
  rewrite displayUserMessage_eq.
  destruct (userElement _ _ _ _); reflexivity.
Qed.

(** The frame [sendMessage] transmits for the text [message] in the
    conversation [id]. *)
Lemma sendMessage_open (s : State) (i : nat) (sock : Socket) :
  Str.trim (chatInput (page s)) <> EmptyString ->
  isConnected (globals s) = true ->
  websocket (globals s) = Some i ->
  sockets (env s) !! i = Some sock ->
  readyState sock = OPEN ->
  sockets (env (state_of (sendMessage s)))
  = <[i := Browser.transmit (chat_message_frame s) sock]> (sockets (env s)).
Proof.
  intros Htext Hon Hws Hsock Hopen.
  rewrite (sendMessage_eq s Htext Hon).
  destruct (cleared_frame s) as (Hg & He & _).
  unfold Browser.websocket_send. rewrite Hg, He, Hws, Hsock, Hopen.
  reflexivity.
Qed.

(** X4. The server names the conversation: once a [new_conversation] frame
    has been handled, the next message sent carries the identifier of that
    frame; when the frame has no [conversation_id] the message is sent
    without one. *)
Theorem new_conversation_then_send (frame : string) (s : State) (i : nat) (sock : Socket) :
  has_tag "new_conversation" frame = true ->
  Str.trim (chatInput (page s)) <> EmptyString ->
  isConnected (globals s) = true ->
  websocket (globals s) = Some i ->
  sockets (env s) !! i = Some sock ->
  readyState sock = OPEN ->
  let s1 := state_of (handleWebSocketMessage frame s) in
  let id := field_of "conversation_id" frame in
  currentConversationId (globals s1) = id /\
  sockets (env (state_of (sendMessage s1)))
  = <[i := Browser.transmit
             (JSObj ([ ("type", JSStr "chat_message");
                       ("message", JSStr (Str.trim (chatInput (page s)))) ]
                     ++ match id with
                        | JSUndefined => []
                        | _ => [ ("conversation_id", id) ]
                        end))
             sock]> (sockets (env s)).
Proof.
  intros H Htext Hon Hws Hsock Hopen. cbv zeta.
  assert (E : state_of (handleWebSocketMessage frame s)
              = set_currentConversationId (field_of "conversation_id" frame) s).
  { destruct (handle_tagged _ _ s H) as (fields & Hp & ->).
    rewrite !(field_of_parsed _ _ _ Hp). reflexivity. }
  rewrite E. split; [reflexivity|].
  rewrite (sendMessage_open
             (set_currentConversationId (field_of "conversation_id" frame) s)
             i sock Htext Hon Hws Hsock Hopen).
  unfold chat_message_frame, Browser.json_object. cbn.
  destruct (field_of "conversation_id" frame); reflexivity.
Qed.

End Chat.

(** ** Properties of the renderer *)

Section Rendering.

Variable marked_parse : string -> option string.

Local Abbreviation user_markup := (user_markup marked_parse).

Lemma is_code_true (n : N) (c : ascii) : Str.is_code n c = true -> c = ascii_of_N n.
Proof.
  unfold Str.is_code, Str.code. intros H. apply N.eqb_eq in H.
  rewrite <- H. symmetry. apply ascii_N_embedding.
Qed.

Lemma replace_lf_app (b x y : string) :
  Str.replace_lf b (x +:+ y) = Str.replace_lf b x +:+ Str.replace_lf b y.
Proof.
  induction x as [|c x IH]; [reflexivity|].
  rewrite append_cons. cbn [Str.replace_lf]. rewrite IH, append_assoc. reflexivity.
Qed.

Lemma replace_lf_escapeChar (c : ascii) :
  Str.replace_lf "<br>" (Markdown.escapeChar c) = piece c.
Proof.
  unfold piece, Markdown.escapeChar.
  destruct (Str.is_code 10 c) eqn:Hlf.
  - apply is_code_true in Hlf. subst c. reflexivity.
  - destruct (Str.is_code 38 c); [reflexivity|].
    destruct (Str.is_code 60 c); [reflexivity|].
    destruct (Str.is_code 62 c); [reflexivity|].
    destruct (Str.is_code 160 c); [reflexivity|].
    cbn [Str.replace_lf]. rewrite Hlf. reflexivity.
Qed.

Lemma escaped_with_breaks_cons (c : ascii) (r : string) :
  escaped_with_breaks (String c r) = piece c +:+ escaped_with_breaks r.
Proof.
  unfold escaped_with_breaks. cbn [Markdown.escapeText].
  rewrite replace_lf_app, replace_lf_escapeChar. reflexivity.
Qed.

Lemma piece_not_lf (c : ascii) (rest : string) :
  match piece c +:+ rest with
  | String x _ => Str.is_code 10 x = false
  | EmptyString => True
  end.
Proof.
  unfold piece, Markdown.escapeChar.
  destruct (Str.is_code 10 c) eqn:Hlf; [reflexivity|].
  destruct (Str.is_code 38 c); [reflexivity|].
  destruct (Str.is_code 60 c); [reflexivity|].
  destruct (Str.is_code 62 c); [reflexivity|].
  destruct (Str.is_code 160 c); [reflexivity|].
  exact Hlf.
Qed.

(** The markup of a user message never starts with a line feed. *)
Lemma escaped_with_breaks_not_lf (text : string) :
  match escaped_with_breaks text with
  | String x _ => Str.is_code 10 x = false
  | EmptyString => True
  end.
Proof.
  destruct text as [|c r]; [exact I|].
  rewrite escaped_with_breaks_cons. apply piece_not_lf.
Qed.

Lemma normalize_piece (c : ascii) (rest : string) :
  Str.is_code 13 c = false ->
  Html.normalize_newlines (piece c +:+ rest) = piece c +:+ Html.normalize_newlines rest.
Proof.
  intros Hcr. unfold piece, Markdown.escapeChar.
  destruct (Str.is_code 10 c); [reflexivity|].
  destruct (Str.is_code 38 c); [reflexivity|].
  destruct (Str.is_code 60 c); [reflexivity|].
  destruct (Str.is_code 62 c); [reflexivity|].
  destruct (Str.is_code 160 c); [reflexivity|].
  rewrite !append_cons. cbn [Html.normalize_newlines]. rewrite Hcr. reflexivity.
Qed.

(** A carriage return of the message is read as a line feed. *)
Lemma normalize_piece_cr (c : ascii) (text : string) :
  Str.is_code 13 c = true ->
  Html.normalize_newlines (piece c +:+ escaped_with_breaks text)
  = String Html.lf (Html.normalize_newlines (escaped_with_breaks text)).
Proof.
  intros Hcr. apply is_code_true in Hcr. subst c.
  change (piece (ascii_of_N 13) +:+ escaped_with_breaks text)
    with (String (ascii_of_N 13) (escaped_with_breaks text)).
  cbn [Html.normalize_newlines].
  change (Str.is_code 13 (ascii_of_N 13)) with true. cbv iota.
  pose proof (escaped_with_breaks_not_lf text) as Hlf.
  destruct (escaped_with_breaks text) as [|x rest]; [reflexivity|].
  rewrite Hlf. reflexivity.
Qed.

Lemma tokenize_piece (c : ascii) (rest : string) :
  Str.is_code 0 c = false ->
  Html.tokenize O (piece c +:+ rest)
  = option_map
      (fun nodes => if Str.is_code 10 c then Html.Br :: nodes else Html.add_char c nodes)
      (Html.tokenize O rest).
Proof.
  intros Hnul. unfold piece, Markdown.escapeChar.
  destruct (Str.is_code 10 c) eqn:Hlf; [reflexivity|].
  destruct (Str.is_code 38 c) eqn:Hamp;
    [apply is_code_true in Hamp; subst c; reflexivity|].
  destruct (Str.is_code 60 c) eqn:Hlt;
    [apply is_code_true in Hlt; subst c; reflexivity|].
  destruct (Str.is_code 62 c) eqn:Hgt;
    [apply is_code_true in Hgt; subst c; reflexivity|].
  destruct (Str.is_code 160 c) eqn:Hnbsp;
    [apply is_code_true in Hnbsp; subst c; reflexivity|].
  rewrite append_cons. cbn [Html.tokenize]. rewrite Hlt, Hamp, Hnul. reflexivity.
Qed.

(** A NUL of the message is dropped. *)
Lemma tokenize_piece_nul (c : ascii) (rest : string) :
  Str.is_code 0 c = true ->
  Html.tokenize O (piece c +:+ rest) = Html.tokenize O rest.
Proof.
  intros Hnul. apply is_code_true in Hnul. subst c. reflexivity.
Qed.

(** Whatever the text, the markup of a user message parses into text nodes
    and line breaks only. *)
Lemma parse_escaped_with_breaks (text : string) :
  Html.parse (escaped_with_breaks text) = Some (Html.received text).
Proof.
  unfold Html.parse. induction text as [|c r IH]; [reflexivity|].
  rewrite escaped_with_breaks_cons. cbn [Html.received].
  destruct (Str.is_code 13 c) eqn:Hcr.
  - rewrite (normalize_piece_cr c r Hcr).
    assert (Hlf : Str.is_code 10 c = false)
      by (apply is_code_true in Hcr; subst c; reflexivity).
    rewrite Hlf.
    change (Html.tokenize 0 (String Html.lf ?x))
      with (option_map (Html.add_char Html.lf) (Html.tokenize 0 x)).
    rewrite IH. reflexivity.
  - rewrite normalize_piece by exact Hcr.
    destruct (Str.is_code 0 c) eqn:Hnul.
    + rewrite tokenize_piece_nul by exact Hnul.
      assert (Hlf : Str.is_code 10 c = false)
        by (apply is_code_true in Hnul; subst c; reflexivity).
      rewrite Hlf. exact IH.
    + rewrite tokenize_piece by exact Hnul. rewrite IH. reflexivity.
Qed.

Lemma received_plain (text : string) :
  Html.plain text = true -> Html.received text = Html.lines text.
Proof.
  induction text as [|c r IH]; intros Hplain; [reflexivity|].
  cbn [Html.plain] in Hplain.
  apply andb_prop in Hplain as [Hc Hr]. apply andb_prop in Hc as [Hnul Hcr].
  apply negb_true_iff in Hnul, Hcr.
  cbn [Html.received Html.lines]. rewrite Hnul, Hcr, (IH Hr). reflexivity.
Qed.

Lemma textContent_add_char (c : ascii) (nodes : list Html.Node) :
  Html.textContent (Html.add_char c nodes) = String c (Html.textContent nodes).
Proof. destruct nodes as [|[data|] rest]; reflexivity. Qed.

Lemma text_with_breaks_add_char (c : ascii) (nodes : list Html.Node) :
  Html.text_with_breaks (Html.add_char c nodes)
  = String c (Html.text_with_breaks nodes).
Proof. destruct nodes as [|[data|] rest]; reflexivity. Qed.

Lemma textContent_lines (text : string) :
  Html.textContent (Html.lines text) = Str.replace_lf EmptyString text.
Proof.
  induction text as [|c r IH]; [reflexivity|].
  cbn [Html.lines Str.replace_lf].
  destruct (Str.is_code 10 c); [exact IH|].
  rewrite textContent_add_char, IH. reflexivity.
Qed.

Lemma text_with_breaks_lines (text : string) :
  Html.text_with_breaks (Html.lines text) = text.
Proof.
  induction text as [|c r IH]; [reflexivity|].
  cbn [Html.lines].
  destruct (Str.is_code 10 c) eqn:Hlf.
  - apply is_code_true in Hlf. subst c. cbn [Html.text_with_breaks].
    rewrite IH. reflexivity.
  - rewrite text_with_breaks_add_char, IH. reflexivity.
Qed.

(** C7, as the code has it.  For every text, the markup of a user message
    is the text with [&], [<], [>] and the no-break space escaped and every
    line feed replaced by [<br>], and parsing the markup back gives text
    nodes and [br] elements only: no character of the message is read as
    markup.  For a text without NUL and carriage return, which the parser
    drops and rewrites, the text nodes hold the characters of the message as
    they are; the text content is then the message without its line feeds,
    and the message itself once every [br] is read as a line feed. *)
Theorem user_message_read_back (text : string) :
  user_markup text = Some (escaped_with_breaks text) /\
  read_back marked_parse text = Some (Html.received text) /\
  (Html.plain text = true ->
   Html.received text = Html.lines text /\
   Html.textContent (Html.lines text) = Str.replace_lf EmptyString text /\
   Html.text_with_breaks (Html.lines text) = text).
Proof.
  assert (Hmarkup : user_markup text = Some (escaped_with_breaks text))
    by reflexivity.
  split; [exact Hmarkup|]. split.
  - unfold read_back. unfold user_markup in *. rewrite Hmarkup.
    apply parse_escaped_with_breaks.
  - intros Hplain. split; [exact (received_plain text Hplain)|].
    split; [apply textContent_lines | apply text_with_breaks_lines].
Qed.

End Rendering.

(** C7 fails as a statement about [textContent]: the message of two lines
    [a] and [b] comes back as [ab]. *)
Lemma text_content_loses_line_feeds :
  ~ text_content_is_input (fun _ => None).
Proof.
  intros H. specialize (H ("a" +:+ Str.nl +:+ "b")). vm_compute in H. discriminate H.
Qed.

(** A carriage return does not come back either way: the parser reads it
    as a line feed inside the text. *)
Lemma carriage_return_rewritten :
  read_back (fun _ => None) ("a" +:+ Str.chr 13 +:+ "b")
  = Some [Html.Text ("a" +:+ Str.nl +:+ "b")].
Proof. reflexivity. Qed.

(** C5. A fenced block without a language is not wrapped: [marked] emits
    [<pre><code>] without a [class] attribute, the pattern of
    [wrapCodeBlocks] does not match it, and the markup comes out as it went
    in, with no header, no language label and no copy button. *)
Theorem unlabelled_fence_not_wrapped :
  let code := "x = 1" +:+ Str.nl in
  let marked := fun _ : string => Some (Markdown.marked_code EmptyString code) in
  Markdown.wrapCodeBlocks (Markdown.marked_code EmptyString code)
  = Markdown.marked_code EmptyString code /\
  Markdown.processMessageContent marked (JSStr (Markdown.fence EmptyString code)) false
  = Some ("<pre><code>x = 1" +:+ Str.nl +:+ "</code></pre>" +:+ Str.nl).
Proof. vm_compute. split; reflexivity. Qed.

Lemma match_code_block_not_lt (c : ascii) (r : string) :
  Str.is_code 60 c = false -> Markdown.match_code_block (String c r) = None.
Proof.
  intros H. unfold Markdown.match_code_block, Markdown.open_tag.
  rewrite append_cons. cbn [Str.strip].
  destruct (Ascii.eqb_spec "<"%char c) as [<-|_]; [discriminate H | reflexivity].
Qed.

Lemma replace_code_blocks_text (text rest : string) :
  Str.no_lt text = true ->
  Markdown.replace_code_blocks O (text +:+ rest)
  = text +:+ Markdown.replace_code_blocks O rest.
Proof.
  induction text as [|c r IH]; intros H; [reflexivity|].
  cbn [Str.no_lt] in H. apply andb_prop in H as [Hc Hr]. apply negb_true_iff in Hc.
  rewrite !append_cons. cbn [Markdown.replace_code_blocks].
  rewrite (match_code_block_not_lt c _ Hc), (IH Hr). reflexivity.
Qed.

(** Whatever its code, a fenced block without a language comes out of
    [wrapCodeBlocks] unchanged. *)
Lemma unlabelled_fence_unchanged (code : string) :
  Str.no_lt code = true ->
  Markdown.wrapCodeBlocks (Markdown.marked_code EmptyString code)
  = Markdown.marked_code EmptyString code.
Proof.
  intros H. unfold Markdown.wrapCodeBlocks, Markdown.marked_code. cbn [Str.is_empty].
  change ("<pre><code>" +:+ code +:+ "</code></pre>" +:+ Str.nl)
    with ("<pre>" +:+ "<code>" +:+ code +:+ "</code></pre>" +:+ Str.nl).
  assert (Hpre : forall x,
            Markdown.replace_code_blocks O ("<pre>" +:+ "<code>" +:+ x)
            = "<pre>" +:+ "<code>" +:+ Markdown.replace_code_blocks O x).
  { intros x. reflexivity. }
  rewrite Hpre, (replace_code_blocks_text code _ H). reflexivity.
Qed.

Lemma strip_app (p rest : string) : Str.strip p (p +:+ rest) = Some rest.
Proof.
  induction p as [|c p IH]; [reflexivity|].
  rewrite append_cons. cbn [Str.strip]. rewrite Ascii.eqb_refl. exact IH.
Qed.

Lemma span_word_app (w rest : string) (c : ascii) :
  Str.all_word w = true ->
  Str.is_word c = false ->
  Str.span_word (w +:+ String c rest) = (w, String c rest).
Proof.
  intros Hw Hc. induction w as [|x w IH].
  - cbn [String.append Str.span_word]. change (EmptyString +:+ String c rest)
      with (String c rest). cbn [Str.span_word]. rewrite Hc. reflexivity.
  - cbn [Str.all_word] in Hw. apply andb_prop in Hw as [Hx Hw].
    rewrite append_cons. cbn [Str.span_word]. rewrite Hx, (IH Hw). reflexivity.
Qed.

Lemma find_after_text (p text rest : string) (c : ascii) :
  Str.is_code 60 c = true ->
  Str.no_lt text = true ->
  Str.find (String c p) (text +:+ String c p +:+ rest) = Some (text, rest).
Proof.
  intros Hc Htext. induction text as [|x text IH].
  - change (EmptyString +:+ String c p +:+ rest) with (String c p +:+ rest).
    destruct (String c p +:+ rest) eqn:E; [discriminate E|].
    cbn [Str.find]. rewrite <- E, strip_app. reflexivity.
  - cbn [Str.no_lt] in Htext. apply andb_prop in Htext as [Hx Htext].
    apply negb_true_iff in Hx.
    rewrite append_cons. cbn [Str.find Str.strip].
    destruct (Ascii.eqb_spec c x) as [->|_]; [congruence|].
    rewrite (IH Htext). reflexivity.
Qed.

Lemma replace_code_blocks_skip (a b : string) :
  Markdown.replace_code_blocks (String.length a) (a +:+ b)
  = Markdown.replace_code_blocks O b.
Proof.
  induction a as [|c a IH]; [reflexivity|].
  rewrite append_cons. cbn [String.length Markdown.replace_code_blocks]. exact IH.
Qed.

Lemma length_append (a b : string) :
  String.length (a +:+ b) = (String.length a + String.length b)%nat.
Proof.
  induction a as [|c a IH]; [reflexivity|].
  rewrite append_cons. cbn [String.length]. rewrite IH. reflexivity.
Qed.

(** The pattern matches the markup of a block whose language is made of word
    characters, and captures the language and the code. *)
Lemma match_code_block_marked (lang code after : string) :
  lang <> EmptyString ->
  Str.all_word lang = true ->
  Str.no_lt code = true ->
  Markdown.match_code_block
    (Markdown.open_tag +:+ lang +:+ Markdown.open_end +:+ code +:+
     Markdown.close_tag +:+ after)
  = Some (lang, code, after).
Proof.
  intros Hne Hword Hcode.
  unfold Markdown.match_code_block. rewrite strip_app.
  change (Markdown.open_end +:+ code +:+ Markdown.close_tag +:+ after)
    with (String (ascii_of_nat 34) (">" +:+ code +:+ Markdown.close_tag +:+ after)).
  rewrite (span_word_app lang _ (ascii_of_nat 34) Hword eq_refl).
  destruct lang as [|l lang']; [congruence|]. cbn [Str.is_empty].
  change (String (ascii_of_nat 34) (">" +:+ code +:+ Markdown.close_tag +:+ after))
    with (Markdown.open_end +:+ code +:+ Markdown.close_tag +:+ after).
  rewrite strip_app.
  change Markdown.close_tag with (String "<" "/code></pre>").
  rewrite (find_after_text _ code after "<" eq_refl Hcode). reflexivity.
Qed.

Lemma replace_code_blocks_match (c : ascii) (r lang code rest : string) :
  Markdown.match_code_block (String c r) = Some (lang, code, rest) ->
  Markdown.replace_code_blocks O (String c r)
  = Markdown.wrapper lang code +:+
    Markdown.replace_code_blocks
      (String.length (String c r) - String.length rest - 1)%nat r.
Proof. intros H. cbn [Markdown.replace_code_blocks]. rewrite H. reflexivity. Qed.

Lemma skip_length (c : ascii) (a rest : string) :
  (String.length (String c (a +:+ rest)) - String.length rest - 1)%nat
  = String.length a.
Proof. cbn [String.length]. rewrite length_append. lia. Qed.

Lemma open_tag_cons (rest : string) :
  Markdown.open_tag +:+ rest
  = String "<" (("pre><code class=" +:+ Str.dq +:+ "language-") +:+ rest).
Proof. reflexivity. Qed.

(** A block with a language is replaced by its wrapper wherever it stands;
    the scan resumes right after it. *)
Lemma replace_code_blocks_block (lang code rest : string) :
  lang <> EmptyString ->
  Str.all_word lang = true ->
  Str.no_lt code = true ->
  Markdown.replace_code_blocks O (Markdown.marked_code lang code +:+ rest)
  = Markdown.wrapper lang code +:+ Str.nl +:+ Markdown.replace_code_blocks O rest.
Proof.
  intros Hne Hword Hcode.
  pose proof (match_code_block_marked lang code (Str.nl +:+ rest) Hne Hword Hcode)
    as Hmatch.
  unfold Markdown.marked_code.
  destruct (Str.is_empty lang) eqn:Hempty.
  { destruct lang; [congruence | discriminate Hempty]. }
  rewrite !append_assoc.
  rewrite open_tag_cons in Hmatch |- *.
  rewrite (replace_code_blocks_match _ _ _ _ _ Hmatch).
  f_equal.
  rewrite <- !(append_assoc _ _ (Str.nl +:+ rest)).
  rewrite skip_length, replace_code_blocks_skip.
  apply replace_code_blocks_text. reflexivity.
Qed.

(** A fenced block whose language is made of word characters is replaced by
    the wrapper, which shows the language and the copy button around the
    block. *)
Lemma labelled_fence_wrapped (lang code : string) :
  lang <> EmptyString ->
  Str.all_word lang = true ->
  Str.no_lt code = true ->
  Markdown.wrapCodeBlocks (Markdown.marked_code lang code)
  = Markdown.wrapper lang code +:+ Str.nl.
Proof.
  intros Hne Hword Hcode. unfold Markdown.wrapCodeBlocks.
  rewrite <- (append_nil_r (Markdown.marked_code lang code)).
  rewrite (replace_code_blocks_block lang code EmptyString Hne Hword Hcode).
  reflexivity.
Qed.

(** A language with a character outside [\w] is not matched either. *)
Lemma symbol_language_not_wrapped :
  let html := Markdown.marked_code "c++" ("x = 1" +:+ Str.nl) in
  Markdown.wrapCodeBlocks html = html.
Proof. vm_compute. reflexivity. Qed.

(** ** More on the renderer *)

Lemma all_app (p : ascii -> bool) (a b : string) :
  Str.all p (a +:+ b) = Str.all p a && Str.all p b.
Proof.
  induction a as [|c a IH]; [reflexivity|].
  rewrite append_cons. cbn [Str.all]. rewrite IH, andb_assoc. reflexivity.
Qed.

Lemma escapeChar_not_angle (c : ascii) :
  Str.all Str.not_angle (Markdown.escapeChar c) = true.
Proof.
  unfold Markdown.escapeChar.
  destruct (Str.is_code 38 c); [reflexivity|].
  destruct (Str.is_code 60 c) eqn:Hlt; [reflexivity|].
  destruct (Str.is_code 62 c) eqn:Hgt; [reflexivity|].
  destruct (Str.is_code 160 c); [reflexivity|].
  cbn [Str.all]. unfold Str.not_angle. rewrite Hlt, Hgt. reflexivity.
Qed.

Lemma escapeText_not_angle (s : string) :
  Str.all Str.not_angle (Markdown.escapeText s) = true.
Proof.
  induction s as [|c s IH]; [reflexivity|].
  cbn [Markdown.escapeText]. rewrite all_app, escapeChar_not_angle, IH. reflexivity.
Qed.

(** X5. Whatever value it is given, the text [escapeHtml] returns holds
    neither [<] nor [>]: nothing in it can open or close a tag.  (For a
    value that cannot be converted to text the function throws and returns
    nothing.) *)
Theorem escapeHtml_no_markup (text : JSValue) (escaped : string) :
  Markdown.escapeHtml text = Some escaped ->
  Str.all Str.not_angle escaped = true.
Proof.
  unfold Markdown.escapeHtml. destruct (JS.toDOMString text) as [shown|]; [|discriminate].
  intros H. injection H as <-. apply escapeText_not_angle.
Qed.

(** X6. When [marked] cannot render its input (it throws, or the input is
    not a string), [renderMarkdown] falls back on [escapeHtml]: its outcome
    is that of [escapeHtml] on the input, nothing for a falsy input.  For a
    string it does not fail and returns the text escaped; whenever it
    returns, the result holds no tag.  (For a value that cannot be converted
    to text, [escapeHtml] throws inside the [catch] block and so does
    [renderMarkdown].) *)
Theorem renderMarkdown_degrades
  (marked_parse : string -> option string) (markdown : JSValue) :
  Markdown.marked_parse_value marked_parse markdown = None ->
  Markdown.renderMarkdown marked_parse markdown
  = (if JS.truthy markdown then Markdown.escapeHtml markdown else Some EmptyString) /\
  (forall text,
     markdown = JSStr text ->
     Markdown.renderMarkdown marked_parse markdown = Some (Markdown.escapeText text)) /\
  (forall html,
     Markdown.renderMarkdown marked_parse markdown = Some html ->
     Str.all Str.not_angle html = true).
Proof.
  intros H. unfold Markdown.renderMarkdown. rewrite H.
  split; [destruct (JS.truthy markdown); reflexivity|]. split.
  - intros text ->. destruct text; reflexivity.
  - intros html. destruct (JS.truthy markdown); cbn [negb].
    + unfold Markdown.escapeHtml.
      destruct (JS.toDOMString markdown) as [shown|]; [|discriminate].
      intros E. injection E as <-. apply escapeText_not_angle.
    + intros E. injection E as <-. reflexivity.
Qed.

Lemma normalize_escapeChar (c : ascii) (rest : string) :
  Str.is_code 13 c = false ->
  Html.normalize_newlines (Markdown.escapeChar c +:+ rest)
  = Markdown.escapeChar c +:+ Html.normalize_newlines rest.
Proof.
  intros Hcr. unfold Markdown.escapeChar.
  destruct (Str.is_code 38 c); [reflexivity|].
  destruct (Str.is_code 60 c); [reflexivity|].
  destruct (Str.is_code 62 c); [reflexivity|].
  destruct (Str.is_code 160 c); [reflexivity|].
  rewrite !append_cons. cbn [Html.normalize_newlines]. rewrite Hcr. reflexivity.
Qed.

Lemma tokenize_escapeChar (c : ascii) (rest : string) :
  Str.is_code 0 c = false ->
  Html.tokenize O (Markdown.escapeChar c +:+ rest)
  = option_map (Html.add_char c) (Html.tokenize O rest).
Proof.
  intros Hnul. unfold Markdown.escapeChar.
  destruct (Str.is_code 38 c) eqn:Hamp;
    [apply is_code_true in Hamp; subst c; reflexivity|].
  destruct (Str.is_code 60 c) eqn:Hlt;
    [apply is_code_true in Hlt; subst c; reflexivity|].
  destruct (Str.is_code 62 c) eqn:Hgt;
    [apply is_code_true in Hgt; subst c; reflexivity|].
  destruct (Str.is_code 160 c) eqn:Hnbsp;
    [apply is_code_true in Hnbsp; subst c; reflexivity|].
  rewrite append_cons. cbn [Html.tokenize]. rewrite Hlt, Hamp, Hnul. reflexivity.
Qed.

Lemma parse_escapeText (text : string) :
  Html.plain text = true ->
  Html.parse (Markdown.escapeText text) = Some (Html.text_node text).
Proof.
  unfold Html.parse. induction text as [|c r IH]; intros Hplain; [reflexivity|].
  cbn [Html.plain] in Hplain.
  apply andb_prop in Hplain as [Hc Hr]. apply andb_prop in Hc as [Hnul Hcr].
  apply negb_true_iff in Hnul, Hcr.
  cbn [Markdown.escapeText].
  rewrite normalize_escapeChar by exact Hcr.
  rewrite tokenize_escapeChar by exact Hnul. rewrite (IH Hr).
  destruct r; reflexivity.
Qed.

(** X7. Round trip of [escapeHtml]: for a text without NUL and carriage return,
    the escaped text parses back to a single text node holding the text, so
    its text content is the text itself, line feeds included. *)
Theorem escapeHtml_round_trip (text : string) :
  Html.plain text = true ->
  Markdown.escapeHtml (JSStr text) = Some (Markdown.escapeText text) /\
  Html.parse (Markdown.escapeText text) = Some (Html.text_node text) /\
  Html.textContent (Html.text_node text) = text.
Proof.
  intros H. split; [reflexivity|]. split; [exact (parse_escapeText text H)|].
  destruct text; [reflexivity|]. cbn. apply append_nil_r.
Qed.

Lemma strip_app_none (p q t cont : string) :
  Str.strip p t = None ->
  cont = EmptyString \/
  (exists c r, cont = String c r /\ Str.all (fun x => negb (Ascii.eqb x c)) p = true) ->
  Str.strip (p +:+ q) (t +:+ cont) = None.
Proof.
  revert t. induction p as [|a p IH]; intros t Ht Hcont; [discriminate Ht|].
  rewrite append_cons. destruct t as [|b t].
  - change (EmptyString +:+ cont) with cont.
    destruct Hcont as [-> | (c & r & -> & Hall)]; [reflexivity|].
    cbn [Str.strip]. cbn [Str.all] in Hall. apply andb_prop in Hall as [Hac _].
    apply negb_true_iff in Hac. rewrite Hac. reflexivity.
  - rewrite append_cons. cbn [Str.strip] in *.
    destruct (Ascii.eqb a b); [|reflexivity].
    apply IH; [exact Ht|].
    destruct Hcont as [-> | (c & r & -> & Hall)]; [left; reflexivity|].
    right. exists c, r. split; [reflexivity|].
    cbn [Str.all] in Hall. apply andb_prop in Hall as [_ Hall]. exact Hall.
Qed.

Lemma strip_cons_same (a : ascii) (p t : string) :
  Str.strip (String a p) (String a t) = Str.strip p t.
Proof. cbn [Str.strip]. rewrite Ascii.eqb_refl. reflexivity. Qed.

(** Text in which [<pre] does not occur is copied as it is, provided what
    follows is the end or starts with [<]. *)
Lemma replace_code_blocks_prose (text cont : string) :
  Str.absent "<pre" text = true ->
  cont = EmptyString \/ Str.starts "<" cont = true ->
  Markdown.replace_code_blocks O (text +:+ cont)
  = text +:+ Markdown.replace_code_blocks O cont.
Proof.
  intros Habs Hcont. induction text as [|c text IH]; [reflexivity|].
  cbn [Str.absent] in Habs. apply andb_prop in Habs as [Hhere Hrest].
  apply negb_true_iff in Hhere.
  rewrite !append_cons. cbn [Markdown.replace_code_blocks].
  assert (Hnone : Markdown.match_code_block (String c (text +:+ cont)) = None).
  { destruct (Str.is_code 60 c) eqn:Hc; [|apply match_code_block_not_lt, Hc].
    apply is_code_true in Hc. subst c.
    unfold Markdown.match_code_block.
    change Markdown.open_tag
      with (String "<" ("pre" +:+ "><code class=" +:+ Str.dq +:+ "language-")).
    change (ascii_of_N 60) with "<"%char in *.
    unfold Str.starts in Hhere. rewrite strip_cons_same in Hhere.
    rewrite strip_cons_same.
    rewrite (strip_app_none "pre" _ text cont); [reflexivity| |].
    - destruct (Str.strip "pre" text); [discriminate Hhere | reflexivity].
    - destruct Hcont as [-> | Hs]; [left; reflexivity|].
      right. unfold Str.starts in Hs. destruct cont as [|x r]; [discriminate Hs|].
      exists x, r. split; [reflexivity|].
      cbn [Str.strip] in Hs.
      destruct (Ascii.eqb_spec "<"%char x) as [<-|_]; [reflexivity | discriminate Hs]. }
  rewrite Hnone, (IH Hrest). reflexivity.
Qed.

Lemma marked_code_starts (lang code rest : string) :
  Str.starts "<" (Markdown.marked_code lang code +:+ rest) = true.
Proof. unfold Markdown.marked_code. destruct (Str.is_empty lang); reflexivity. Qed.

(** X8. In a document every fenced block with a language of word characters is
    wrapped, in document order, and the markup around the blocks is left as
    it is. *)
Theorem wrapCodeBlocks_document (intro : string) (blocks : list Markdown.Fenced) :
  Str.absent "<pre" intro = true ->
  forallb Markdown.fenced_ok blocks = true ->
  Markdown.wrapCodeBlocks (Markdown.document intro blocks)
  = Markdown.wrapped_document intro blocks.
Proof.
  intros Hintro Hblocks.
  unfold Markdown.wrapCodeBlocks, Markdown.document, Markdown.wrapped_document.
  assert (Hrest :
    Markdown.replace_code_blocks O
      (Str.concat
         (map (fun b => Markdown.marked_code (Markdown.fenced_lang b) (Markdown.fenced_code b)
                        +:+ Markdown.fenced_after b) blocks))
    = Str.concat
        (map (fun b => Markdown.wrapper (Markdown.fenced_lang b) (Markdown.fenced_code b)
                       +:+ Str.nl +:+ Markdown.fenced_after b) blocks)).
  { induction blocks as [|[lang code after] blocks IH]; [reflexivity|].
    cbn [forallb] in Hblocks. apply andb_prop in Hblocks as [Hb Hblocks].
    unfold Markdown.fenced_ok in Hb.
    apply andb_prop in Hb as [Hb Hafter]. apply andb_prop in Hb as [Hb Hcode].
    apply andb_prop in Hb as [Hne Hword]. apply negb_true_iff in Hne.
    cbn [Markdown.fenced_lang Markdown.fenced_code Markdown.fenced_after] in *.
    cbn [map Str.concat fold_right]. fold (Str.concat).
    cbn [Markdown.fenced_lang Markdown.fenced_code Markdown.fenced_after].
    rewrite !append_assoc.
    rewrite replace_code_blocks_block;
      [| intros ->; discriminate Hne | exact Hword | exact Hcode].
    change (fold_right append EmptyString ?l) with (Str.concat l).
    rewrite replace_code_blocks_prose; [rewrite (IH Hblocks); reflexivity | exact Hafter |].
    destruct blocks as [|b' blocks']; [left; reflexivity|].
    right. cbn [map Str.concat fold_right]. rewrite append_assoc.
    apply marked_code_starts. }
  rewrite replace_code_blocks_prose; [rewrite Hrest; reflexivity | exact Hintro |].
  destruct blocks as [|b' blocks']; [left; reflexivity|].
  right. cbn [map Str.concat fold_right]. rewrite append_assoc. apply marked_code_starts.
Qed.

(** ** Examples *)

(** The sample states are reached from the initial one. *)
Lemma connected_reached :
  run sample_parse (fun _ => None) (fun _ _ => "Just now") (fun _ => "now") true
      [CallConnect; SocketOpened 0] (initial sample_user)
  = connected.
Proof. reflexivity. Qed.

Lemma mid_reply_reached :
  receive sample_parse (fun _ => None) (fun _ _ => "Just now") (fun _ => "now") true
          ["c:Hel"] in_conversation
  = mid_reply.
Proof. reflexivity. Qed.

(** C1 at the chunks [Hel], [lo ], [world] followed by a completion: the
    finalized message reads [Hello world]. *)
Lemma chunks_then_complete_witness :
  slot connected = None /\
  Forall2 (is_chunk sample_parse) ["c:Hel"; "c:lo "; "c:world"] ["Hel"; "lo "; "world"] /\
  raw_at
    (receive sample_parse (fun _ => None) (fun _ _ => "Just now") (fun _ => "now") true
             (["c:Hel"; "c:lo "; "c:world"] ++ ["done"]) connected)
    0
  = Some (Some "Hello world").
Proof.
  assert (H0 : slot connected = None) by reflexivity.
  assert (H1 : Forall2 (is_chunk sample_parse)
                 ["c:Hel"; "c:lo "; "c:world"] ["Hel"; "lo "; "world"])
    by (repeat constructor).
  split; [exact H0|]. split; [exact H1|].
  exact (proj1 (proj2
    (chunks_then_complete sample_parse (fun _ => None) (fun _ _ => "Just now")
       (fun _ => "now") true ["c:Hel"; "c:lo "; "c:world"] ["Hel"; "lo "; "world"]
       "done" connected H0 ltac:(discriminate) H1 eq_refl))).
Defined.

(** C2: the socket closes, [connectWebSocket] is called by hand one second
    later, and the timer fires at three seconds while the new socket is still
    connecting: a third socket is constructed. *)
Lemma manual_reconnect_not_suppressed :
  ~ manual_reconnect_suppresses
      sample_parse (fun _ => None) (fun _ _ => "Just now") (fun _ => "now") true.
Proof.
  intros H.
  assert (Hopen : not_closed connected 0)
    by (exists OPEN; split; [reflexivity | discriminate]).
  specialize (H connected 0%nat 1000 Hopen ltac:(unfold reconnect_delay; lia)).
  vm_compute in H. discriminate H.
Qed.

(** When the socket of the manual reconnect has opened before the timer
    fires, the scheduled attempt constructs nothing: two sockets in all. *)
Lemma opened_reconnect_suppresses :
  length
    (sockets (env
       (run sample_parse (fun _ => None) (fun _ _ => "Just now") (fun _ => "now") true
            [ SocketClosed 0 false; Elapsed 1000; CallConnect; SocketOpened 1;
              Elapsed 2000; TimerFired 1 ]
            connected)))
  = 2%nat.
Proof. vm_compute. reflexivity. Qed.

(** C2, as the code has it, at the close of the socket opened at page load. *)
Lemma reconnect_after_close_witness :
  not_closed connected 0 /\
  pending_reconnects
    (step sample_parse (fun _ => None) (fun _ _ => "Just now") (fun _ => "now") true
          (SocketClosed 0 false) connected)
  = S (pending_reconnects connected).
Proof.
  assert (Hopen : not_closed connected 0)
    by (exists OPEN; split; [reflexivity | discriminate]).
  split; [exact Hopen|].
  exact (proj1 (proj2
    (reconnect_after_close sample_parse (fun _ => None) (fun _ _ => "Just now")
       (fun _ => "now") true connected 0 false Hopen))).
Defined.



(** The same with a profile that was not loaded: the user message of [h1]
    is not shown. *)
Lemma history_without_profile :
  displayed
    (receive sample_parse (fun _ => None) (fun _ _ => "Just now") (fun _ => "now") true
             ["h2"; "h1"] (initial JSNull))
  = [].
Proof. reflexivity. Qed.

(** C4 at the conversation 7: the request, then the list refreshed from a
    response of two conversations. *)
Lemma delete_then_reset_witness :
  JS.truthy (currentConversationId (globals in_conversation)) = true /\
  JS.toString (currentConversationId (globals in_conversation)) = Some "7" /\
  let s1 :=
    set_requests
      (requests (env in_conversation)
         ++ [ {| req_endpoint := "/api/conversations/7/delete/";
                 req_method := "DELETE" |} ])
      in_conversation in
  clearCurrentChat true in_conversation = Ok AwaitDelete s1 /\
  exists s2,
    clearCurrentChat_deleted (Resolved JSNull) s1 = Ok AwaitConversations s2 /\
    conversationsList
      (page (state_of
               (clearCurrentChat_listed (fun _ _ => "Today")
                  (Resolved sample_conversations) s2)))
    = SidebarItems
        [ {| item_data_id := "8"; item_active := false; item_title := "Fix &lt;bug&gt;";
             item_message_count := "3"; item_updated := "Today" |};
          {| item_data_id := "9"; item_active := false; item_title := "Hello";
             item_message_count := "1"; item_updated := "Today" |} ].
Proof.
  split; [reflexivity|]. split; [reflexivity|]. cbv zeta.
  destruct (proj2 (delete_then_reset (fun _ _ => "Today") in_conversation eq_refl)
              "7" eq_refl) as (Hrequest & _ & Hdeleted).
  split; [exact Hrequest|].
  destruct (Hdeleted JSNull) as (s2 & Heq & _ & _ & _ & _ & _ & Hlisted).
  exists s2. split; [exact Heq|].
  destruct (Hlisted (Resolved sample_conversations)) as (_ & _ & Hlist & _).
  exact Hlist.
Defined.

(** C6 at a frame with an unknown tag and at a frame that is not JSON. *)
Lemma unknown_frame_ignored_witness :
  unrecognized sample_parse "?" /\
  malformed sample_parse "{" /\
  handleWebSocketMessage sample_parse (fun _ => None) (fun _ _ => "Just now")
    (fun _ => "now") true "?" mid_reply = Ok tt mid_reply /\
  handleWebSocketMessage sample_parse (fun _ => None) (fun _ _ => "Just now")
    (fun _ => "now") true "{" mid_reply = Ok tt mid_reply.
Proof.
  assert (Hu : unrecognized sample_parse "?").
  { intros label Hin. cbn in Hin.
    repeat (destruct Hin as [<- | Hin]; [reflexivity|]). destruct Hin. }
  assert (Hm : malformed sample_parse "{") by reflexivity.
  split; [exact Hu|]. split; [exact Hm|]. split.
  - exact (unknown_frame_ignored sample_parse (fun _ => None) (fun _ _ => "Just now")
             (fun _ => "now") true "?" mid_reply (or_intror Hu)).
  - exact (unknown_frame_ignored sample_parse (fun _ => None) (fun _ _ => "Just now")
             (fun _ => "now") true "{" mid_reply (or_introl Hm)).
Defined.





(** In that state the exception does escape. *)
Lemma send_with_stale_flag_throws :
  completes
    (sendMessage (fun _ => None)
       (set_chatInput "hello"
          (run sample_parse (fun _ => None) (fun _ _ => "Just now")
               (fun _ => "now") true
               [CallConnect; CallConnect; SocketOpened 0]
               (initial sample_user))))
  = false.
Proof. vm_compute. reflexivity. Qed.

(** With the socket closing the message is lost without a trace: the input
    is emptied, the welcome block removed, and nothing is transmitted. *)
Lemma send_on_closing_socket :
  let closing :=
    set_sockets [ {| readyState := CLOSING; transmitted := [] |} ]
      (set_chatInput "hello" connected) in
  exists s',
    sendMessage (fun _ => None) closing = Ok tt s' /\
    chatInput (page s') = EmptyString /\
    chatMessages (page s') = [] /\
    sockets (env s') = sockets (env closing).
Proof. cbv zeta. eexists. split; [vm_compute; reflexivity|]. repeat split. Qed.

(** C10 at a switch to conversation 9 while [Hel] has been streamed: the
    chunks [lo ] and [world] land in the same message; so do, after the
    history, the chunk [lo ], a chunk that cannot be converted and is
    dropped, and a chunk carrying the number [1e21]. *)
Lemma switch_keeps_streaming_witness :
  streaming 0 (Some "Hel") mid_reply /\
  Forall2 (is_chunk session_parse) ["c:lo "; "c:world"] ["lo "; "world"] /\
  let s1 := state_of (loadConversation 9 mid_reply) in
  currentConversationId (globals s1) = JSNum 9 /\
  streaming 0 (Some "Hello world")
    (receive session_parse (fun _ => None) (fun _ _ => "Just now") (fun _ => "now") true
             ["c:lo "; "c:world"] s1) /\
  streaming 0 (Some "Hello 1e+21")
    (receive session_parse (fun _ => None) (fun _ _ => "Just now") (fun _ => "now") true
             ["h2"; "c:lo "; "c?"; "c1e21"] s1).
Proof.
  assert (H : streaming 0 (Some "Hel") mid_reply) by (split; reflexivity).
  assert (Hcs : Forall2 (is_chunk session_parse) ["c:lo "; "c:world"] ["lo "; "world"])
    by (repeat constructor).
  split; [exact H|]. split; [exact Hcs|]. cbv zeta.
  destruct (switch_keeps_streaming session_parse (fun _ => None) (fun _ _ => "Just now")
              (fun _ => "now") true 9 0%nat (Some "Hel")
              ["h2"; "c:lo "; "c?"; "c1e21"] mid_reply H eq_refl)
    as (Hid & _ & Hrun & _).
  destruct (switch_keeps_streaming session_parse (fun _ => None) (fun _ _ => "Just now")
              (fun _ => "now") true 9 0%nat (Some "Hel")
              ["c:lo "; "c:world"] mid_reply H eq_refl)
    as (_ & _ & _ & Htext).
  split; [exact Hid|]. split; [|exact Hrun].
  exact (Htext ["lo "; "world"] Hcs ltac:(discriminate)).
Defined.

(** C7, as the code has it, at a message of two lines with markup characters. *)
Lemma user_message_read_back_witness :
  let text := "a<b" +:+ Str.nl +:+ "*c*" in
  Html.plain text = true /\
  user_markup (fun _ => None) text = Some "a&lt;b<br>*c*" /\
  read_back (fun _ => None) text = Some [Html.Text "a<b"; Html.Br; Html.Text "*c*"] /\
  Html.text_with_breaks [Html.Text "a<b"; Html.Br; Html.Text "*c*"] = text.
Proof.
  cbv zeta. split; [reflexivity|].
  destruct (user_message_read_back (fun _ => None) ("a<b" +:+ Str.nl +:+ "*c*"))
    as (Hmarkup & Hread & Hplain).
  destruct (Hplain eq_refl) as (_ & _ & Hback).
  split; [exact Hmarkup|]. split; [exact Hread | exact Hback].
Defined.

(** X2 at the frames [typing] and [hello] received by the connected
    session. *)
Lemma typing_frame_witness :
  has_tag session_parse "typing" "typing" = true /\
  has_tag session_parse "connection" "hello" = true /\
  handleWebSocketMessage session_parse (fun _ => None) (fun _ _ => "Just now")
    (fun _ => "now") true "typing" connected
  = Ok tt (set_typingHidden false connected) /\
  handleWebSocketMessage session_parse (fun _ => None) (fun _ _ => "Just now")
    (fun _ => "now") true "hello" connected
  = Ok tt connected.
Proof.
  split; [reflexivity|]. split; [reflexivity|]. split.
  - exact (proj1 (typing_frame session_parse (fun _ => None) (fun _ _ => "Just now")
                    (fun _ => "now") true "typing" connected) eq_refl).
  - exact (proj2 (typing_frame session_parse (fun _ => None) (fun _ _ => "Just now")
                    (fun _ => "now") true "hello" connected) eq_refl).
Defined.

(** X3 at the echo of the message [a<b]: with the profile loaded one user
    element is appended, its text escaped; the echo [echo?], whose message
    cannot be converted, is dropped. *)
Lemma user_message_frame_witness :
  has_tag session_parse "user_message" "echo" = true /\
  has_tag session_parse "user_message" "echo?" = true /\
  (exists s',
     handleWebSocketMessage session_parse (fun _ => None) (fun _ _ => "Just now")
       (fun _ => "now") true "echo" connected
     = Ok tt s' /\
     displayed s'
     = [ None;
         Some {| el_role := RoleUser; el_avatar := AvatarImg "avatar.png";
                 el_text := "a&lt;b"; el_rawContent := None;
                 el_timestamp := "Just now"; el_highlighted := false |} ]) /\
  handleWebSocketMessage session_parse (fun _ => None) (fun _ _ => "Just now")
    (fun _ => "now") true "echo?" connected
  = Ok tt connected.
Proof.
  split; [reflexivity|]. split; [reflexivity|]. split.
  - eexists. split.
    + exact (user_message_frame session_parse (fun _ => None) (fun _ _ => "Just now")
               (fun _ => "now") true "echo" connected eq_refl).
    + reflexivity.
  - exact (user_message_frame session_parse (fun _ => None) (fun _ _ => "Just now")
             (fun _ => "now") true "echo?" connected eq_refl).
Defined.

(** X4: the server names the conversation 12, then [hello] is sent. *)
Lemma new_conversation_then_send_witness :
  let s := set_chatInput "  hello " connected in
  let s1 :=
    state_of (handleWebSocketMessage session_parse (fun _ => None)
                (fun _ _ => "Just now") (fun _ => "now") true "new" s) in
  has_tag session_parse "new_conversation" "new" = true /\
  currentConversationId (globals s1) = JSNum 12 /\
  (transmitted <$> sockets (env (state_of (sendMessage (fun _ => None) s1))) !! 0%nat)
  = Some [ JSObj [ ("type", JSStr "chat_message"); ("message", JSStr "hello");
                   ("conversation_id", JSNum 12) ] ].
Proof.
  cbv zeta. split; [reflexivity|].
  destruct (new_conversation_then_send session_parse (fun _ => None)
              (fun _ _ => "Just now") (fun _ => "now") true (fun _ => None) "new"
              (set_chatInput "  hello " connected) 0%nat
              {| readyState := OPEN; transmitted := [] |}
              eq_refl ltac:(discriminate) eq_refl eq_refl eq_refl eq_refl)
    as [Hid Hsent].
  split; [exact Hid|]. rewrite Hsent. reflexivity.
Defined.

(** X6 at the text [<b>] when [marked] is not available. *)
Lemma renderMarkdown_degrades_witness :
  Markdown.marked_parse_value (fun _ => None) (JSStr "<b>") = None /\
  Markdown.renderMarkdown (fun _ => None) (JSStr "<b>") = Some "&lt;b&gt;".
Proof.
  split; [reflexivity|].
  exact (proj1 (proj2 (renderMarkdown_degrades (fun _ => None) (JSStr "<b>") eq_refl))
           "<b>" eq_refl).
Defined.

(** X7 at a text with [<], [&] and a line feed. *)
Lemma escapeHtml_round_trip_witness :
  let text := "a<b" +:+ Str.nl +:+ "&c" in
  Html.plain text = true /\
  Markdown.escapeHtml (JSStr text) = Some ("a&lt;b" +:+ Str.nl +:+ "&amp;c") /\
  Html.parse ("a&lt;b" +:+ Str.nl +:+ "&amp;c") = Some [Html.Text text].
Proof.
  cbv zeta. split; [reflexivity|].
  destruct (escapeHtml_round_trip ("a<b" +:+ Str.nl +:+ "&c") eq_refl)
    as (Hescaped & Hparsed & _).
  split; [exact Hescaped | exact Hparsed].
Defined.

(** X5 at the text [<script>] and at the number 7. *)
Lemma escapeHtml_no_markup_witness :
  Markdown.escapeHtml (JSStr "<script>") = Some "&lt;script&gt;" /\
  Str.all Str.not_angle "&lt;script&gt;" = true /\
  Markdown.escapeHtml (JSNum 7) = Some "7" /\
  Markdown.escapeHtml unprintable = None.
Proof.
  split; [reflexivity|]. split.
  - exact (escapeHtml_no_markup (JSStr "<script>") "&lt;script&gt;" eq_refl).
  - split; reflexivity.
Defined.

(** X8 at a document with a paragraph, a [js] block, a paragraph, a [py]
    block. *)
Lemma wrapCodeBlocks_document_witness :
  let intro := "<p>hi</p>" +:+ Str.nl in
  let blocks :=
    [ {| Markdown.fenced_lang := "js"; Markdown.fenced_code := "x = 1" +:+ Str.nl;
         Markdown.fenced_after := "<p>then</p>" +:+ Str.nl |};
      {| Markdown.fenced_lang := "py"; Markdown.fenced_code := "y = 2" +:+ Str.nl;
         Markdown.fenced_after := EmptyString |} ] in
  Str.absent "<pre" intro = true /\
  forallb Markdown.fenced_ok blocks = true /\
  Markdown.wrapCodeBlocks (Markdown.document intro blocks)
  = Markdown.wrapped_document intro blocks.
Proof.
  cbv zeta. split; [reflexivity|]. split; [reflexivity|].
  exact (wrapCodeBlocks_document ("<p>hi</p>" +:+ Str.nl)
           [ {| Markdown.fenced_lang := "js"; Markdown.fenced_code := "x = 1" +:+ Str.nl;
                Markdown.fenced_after := "<p>then</p>" +:+ Str.nl |};
             {| Markdown.fenced_lang := "py"; Markdown.fenced_code := "y = 2" +:+ Str.nl;
                Markdown.fenced_after := EmptyString |} ]
           eq_refl eq_refl).
Defined.
